(** * PhotoObjectPlacer: the canvas interaction layer

    A shallow embedding of the interactive core of the application
    (App.tsx, components/ComparisonSlider.tsx, services/geminiService.ts,
    types.ts): the pan/zoom transform, the mask canvas with its undo
    history, the binary mask export, the two submission handlers and the
    comparison slider.

    JavaScript numbers are read as exact rationals ([Q]).  A JavaScript
    division whose divisor is zero yields [NaN] or an infinity, which is
    no rational: [js_div] returns [None] there, and the functions that
    divide are written in the option monad.

    The code computes in binary64.  Bounds set by a clamp and the
    program's own formulas are the same there; identities that need
    algebra hold up to rounding only, and the statements that rest on
    them say that they are about exact arithmetic.  The arithmetic of
    [fitImageToScreen], of the wheel and of the hand tool is given in
    binary64 as well, to compute what the code does at given inputs. *)

From Stdlib Require Import QArith Qminmax Lqa ZArith Lia List Ascii String.
From Stdlib Require Import PrimFloat.

Set Warnings "-inexact-float".
From stdpp Require Import base option list.
Import ListNotations.

Local Open Scope Q_scope.

(** ** Numbers *)

(** [a / b] of JavaScript over rationals: no result when [b] is zero. *)
Definition js_div (a b : Q) : option Q :=
  if Qeq_bool b 0 then None else Some (a / b).

(** [v || d] on numbers: [0] is falsy, and so is a missing value. *)
Definition js_or (v : option Q) (d : Q) : Q :=
  match v with
  | Some q => if Qeq_bool q 0 then d else q
  | None => d
  end.

(** [a > b] of JavaScript as a boolean. *)
Definition js_gt (a b : Q) : bool :=
  match a ?= b with Gt => true | _ => false end.

(** ** types.ts *)

Inductive ToolType := BRUSH | HAND.

Record Point := mkPoint { p_x : Q; p_y : Q }.

Record Transform := mkTransform { t_x : Q; t_y : Q; t_k : Q }.

Inductive AppState := IDLE | PROCESSING | COMPARING.

Inductive SourceType := src_image | src_text.

Record ObjectSource := mkObjectSource {
  os_type : SourceType;
  os_data : string;
  os_previewUrl : option string
}.

Definition ToolType_eqb (a b : ToolType) : bool :=
  match a, b with
  | BRUSH, BRUSH | HAND, HAND => true
  | _, _ => false
  end.

Definition AppState_eqb (a b : AppState) : bool :=
  match a, b with
  | IDLE, IDLE | PROCESSING, PROCESSING | COMPARING, COMPARING => true
  | _, _ => false
  end.

(** Equality of points as pairs of rationals. *)
Definition Point_eq (p q : Point) : Prop :=
  p_x p == p_x q /\ p_y p == p_y q.

(** ** The DOM as the handlers see it *)

(** [containerRef.current]: its bounding rectangle and client size. *)
Record Container := mkContainer {
  rect_left : Q;
  rect_top : Q;
  rect_width : Q;
  clientWidth : Q;
  clientHeight : Q
}.

Record MouseEvent := mkMouseEvent { clientX : Q; clientY : Q }.

Record WheelEvent := mkWheelEvent {
  w_clientX : Q;
  w_clientY : Q;
  deltaY : Q
}.

(** ** The 2D context's current transformation matrix

    A point [(x, y)] of user space is drawn at
    [(a x + c y + e, b x + d y + f)].  [translate] and [scale] multiply the
    matrix on the right, as the canvas API does. *)
Record Matrix := mkMatrix {
  m_a : Q; m_b : Q; m_c : Q; m_d : Q; m_e : Q; m_f : Q
}.

Definition identity_matrix : Matrix := mkMatrix 1 0 0 1 0 0.

Definition ctx_translate (m : Matrix) (dx dy : Q) : Matrix :=
  mkMatrix (m_a m) (m_b m) (m_c m) (m_d m)
           (m_a m * dx + m_c m * dy + m_e m)
           (m_b m * dx + m_d m * dy + m_f m).

Definition ctx_scale (m : Matrix) (sx sy : Q) : Matrix :=
  mkMatrix (m_a m * sx) (m_b m * sx) (m_c m * sy) (m_d m * sy)
           (m_e m) (m_f m).

Definition apply_matrix (m : Matrix) (p : Point) : Point :=
  mkPoint (m_a m * p_x p + m_c m * p_y p + m_e m)
          (m_b m * p_x p + m_d m * p_y p + m_f m).

(** The matrix under which [draw] paints the base image and the mask:
    [ctx.translate(transform.x, transform.y); ctx.scale(transform.k,
    transform.k)] on a context just cleared to the identity. *)
Definition draw_matrix (transform : Transform) : Matrix :=
  ctx_scale
    (ctx_translate identity_matrix (t_x transform) (t_y transform))
    (t_k transform) (t_k transform).

(** Where [draw] puts the image-space point [p], in container
    coordinates. *)
Definition toScreen (transform : Transform) (p : Point) : Point :=
  apply_matrix (draw_matrix transform) p.

(** The mouse event that hits the container-relative point [s]. *)
Definition eventAt (c : Container) (s : Point) : MouseEvent :=
  mkMouseEvent (rect_left c + p_x s) (rect_top c + p_y s).

(** ** Pan and zoom *)

(** [None]: the scale is zero, and the coordinates are not finite. *)
Definition getImageCoords (container : option Container)
    (transform : Transform) (e : MouseEvent) : option Point :=
  match container with
  | None => Some (mkPoint 0 0)
  | Some rect =>
      let cx := clientX e - rect_left rect in
      let cy := clientY e - rect_top rect in
      x ← js_div (cx - t_x transform) (t_k transform);
      y ← js_div (cy - t_y transform) (t_k transform);
      Some (mkPoint x y)
  end.

Definition padding : Q := 40.

(** [fitImageToScreen w h] in exact arithmetic: the transform it sets;
    the transform is left as it is when the container is not mounted.
    [None]: [w] or [h] is zero.  [fitImageToScreen64] is the same in
    binary64. *)
Definition fitImageToScreen (container : option Container)
    (transform : Transform) (w h : Q) : option Transform :=
  match container with
  | None => Some transform
  | Some c =>
      let cw := clientWidth c in
      let ch := clientHeight c in
      sw ← js_div (cw - padding) w;
      sh ← js_div (ch - padding) h;
      let scale := Qmin sw sh in
      Some (mkTransform ((cw - w * scale) / 2) ((ch - h * scale) / 2) scale)
  end.

Definition zoomIntensity : Q := 1 # 10.

(** The updater [handleWheel] passes to [setTransform], in exact
    arithmetic.  [None]: the scale of [prev] is zero, and the new
    translation is not finite.  [wheelUpdate64] is the same in
    binary64. *)
Definition wheelUpdate (mouseX mouseY delta : Q) (prev : Transform)
    : option Transform :=
  let newK := Qmax (1 # 10) (Qmin (t_k prev * delta) 5) in
  kRatio ← js_div newK (t_k prev);
  Some (mkTransform (mouseX - (mouseX - t_x prev) * kRatio)
                    (mouseY - (mouseY - t_y prev) * kRatio)
                    newK).

Definition wheelDelta (e : WheelEvent) : Q :=
  if js_gt (deltaY e) 0 then 1 - zoomIntensity else 1 + zoomIntensity.

Definition handleWheel (appState : AppState) (container : option Container)
    (transform : Transform) (e : WheelEvent) : option Transform :=
  if negb (AppState_eqb appState IDLE) then Some transform
  else
    let delta := wheelDelta e in
    match container with
    | None => Some transform
    | Some rect =>
        let mouseX := w_clientX e - rect_left rect in
        let mouseY := w_clientY e - rect_top rect in
        wheelUpdate mouseX mouseY delta transform
    end.

(** The pointer of a wheel event, as a mouse event. *)
Definition wheelPointer (e : WheelEvent) : MouseEvent :=
  mkMouseEvent (w_clientX e) (w_clientY e).

(** A wheel event with what [handleWheel] reads when it runs: the app
    state and the container reference of that render. *)
Record WheelStep := mkWheelStep {
  ws_appState : AppState;
  ws_container : option Container;
  ws_event : WheelEvent
}.

(** A run of wheel events, each applied to the transform the previous
    one left. *)
Fixpoint handleWheels (transform : Transform) (steps : list WheelStep)
    : option Transform :=
  match steps with
  | [] => Some transform
  | s :: rest =>
      t' ← handleWheel (ws_appState s) (ws_container s) transform
             (ws_event s);
      handleWheels t' rest
  end.

Definition scale_in_bounds (t : Transform) : Prop :=
  1 # 10 <= t_k t /\ t_k t <= 5.

(** ** components/ComparisonSlider.tsx *)

Module ComparisonSlider.

Record State := mkState {
  sliderPosition : Q;
  isDragging : bool
}.

(** [useState(50)], [useState(false)]. *)
Definition initial : State := mkState 50 false.

Definition handleMouseDown (st : State) : State :=
  mkState (sliderPosition st) true.

Definition handleMouseUp (st : State) : State :=
  mkState (sliderPosition st) false.

(** [None]: the percentage is [NaN], the container being of width
    zero. *)
Definition handleMouseMove (st : State) (container : option Container)
    (e : MouseEvent) : option State :=
  match isDragging st, container with
  | true, Some rect =>
      let x := Qmax 0 (Qmin (clientX e - rect_left rect) (rect_width rect)) in
      ratio ← js_div x (rect_width rect);
      let percentage := ratio * 100 in
      Some (mkState percentage (isDragging st))
  | _, _ => Some st
  end.

End ComparisonSlider.

(** ** Canvases and pixel data

    A canvas is its size and its RGBA bytes, row by row, four per pixel,
    as [getImageData] exposes them.  [c_has2d] says whether
    [getContext('2d')] gives a context; a context is represented by the
    canvas it draws on. *)

Local Open Scope nat_scope.

Record Canvas := mkCanvas {
  c_width : nat;
  c_height : nat;
  c_data : list Z;
  c_has2d : bool
}.

Record ImageData := mkImageData {
  i_width : nat;
  i_height : nat;
  i_data : list Z
}.

Definition set_data (c : Canvas) (data : list Z) : Canvas :=
  mkCanvas (c_width c) (c_height c) data (c_has2d c).

(** [document.createElement('canvas')] with its width and height set:
    transparent black. *)
Definition createCanvas (has2d : bool) (w h : nat) : Canvas :=
  mkCanvas w h (replicate (4 * w * h) 0%Z) has2d.

Definition getContext (c : Canvas) : option Canvas :=
  if c_has2d c then Some c else None.

(** [ctx.getImageData(0, 0, canvas.width, canvas.height)]. *)
Definition getImageData (ctx : Canvas) : ImageData :=
  mkImageData (c_width ctx) (c_height ctx) (c_data ctx).

(** [ctx.clearRect(0, 0, canvas.width, canvas.height)]. *)
Definition clearRect (ctx : Canvas) : Canvas :=
  set_data ctx (replicate (length (c_data ctx)) 0%Z).

(** [ctx.putImageData(img, 0, 0)]: the pixels of [img] that fall inside
    the canvas replace those of the canvas. *)
Definition putImageData (img : ImageData) (ctx : Canvas) : Canvas :=
  set_data ctx
    (imap (fun i old =>
             let pixel := i / 4 in
             let channel := i mod 4 in
             let x := pixel mod c_width ctx in
             let y := pixel / c_width ctx in
             if (x <? i_width img) && (y <? i_height img)
             then default old
                    (i_data img !! ((y * i_width img + x) * 4 + channel))
             else old)
          (c_data ctx)).

(** What the browser's rasteriser does, byte by byte.
    [arc_fill_byte x y r ctx i] is byte [i] of the canvas after
    [ctx.beginPath(); ctx.arc(x, y, r, 0, 2 * Math.PI);
     ctx.fillStyle = '#ff0000'; ctx.fill()] under [source-over];
    [draw_image_byte src ctx i] is byte [i] after
    [ctx.drawImage(src, 0, 0)]. *)
Class Raster := {
  arc_fill_byte : Q -> Q -> Q -> Canvas -> nat -> Z;
  draw_image_byte : Canvas -> Canvas -> nat -> Z
}.

Definition fillArc `{Raster} (x y r : Q) (ctx : Canvas) : Canvas :=
  set_data ctx (imap (fun i _ => arc_fill_byte x y r ctx i) (c_data ctx)).

Definition drawImage `{Raster} (src ctx : Canvas) : Canvas :=
  set_data ctx (imap (fun i _ => draw_image_byte src ctx i) (c_data ctx)).

(** A rasteriser without anti-aliasing, to run the model on: a pixel is
    filled when its centre lies in the disc, and an image drawn over a
    pixel replaces it unless the image is transparent there. *)
Definition disc_covers (x y r : Q) (w i : nat) : bool :=
  let px := inject_Z (Z.of_nat ((i / 4) mod w)) in
  let py := inject_Z (Z.of_nat ((i / 4) / w)) in
  let dx := (px + (1 # 2) - x)%Q in
  let dy := (py + (1 # 2) - y)%Q in
  Qle_bool (dx * dx + dy * dy) (r * r).

Definition plainRaster : Raster := {|
  arc_fill_byte x y r ctx i :=
    if disc_covers x y r (c_width ctx) i
    then (if (i mod 4 =? 0) || (i mod 4 =? 3) then 255%Z else 0%Z)
    else default 0%Z (c_data ctx !! i);
  draw_image_byte src ctx i :=
    match c_data src !! (4 * (i / 4) + 3) with
    | Some a => if (0 <? a)%Z then default 0%Z (c_data src !! i)
                else default 0%Z (c_data ctx !! i)
    | None => default 0%Z (c_data ctx !! i)
    end
|}.

(** The four bytes of pixel [j]. *)
Definition pixel_at (data : list Z) (j : nat) : option (Z * Z * Z * Z) :=
  r ← data !! (4 * j);
  g ← data !! (4 * j + 1);
  b ← data !! (4 * j + 2);
  a ← data !! (4 * j + 3);
  Some (r, g, b, a).

Definition alpha_at (data : list Z) (j : nat) : option Z :=
  data !! (4 * j + 3).

Definition white : Z * Z * Z * Z := (255, 255, 255, 255)%Z.
Definition black : Z * Z * Z * Z := (0, 0, 0, 255)%Z.

(** ** The binary mask *)

(** The pixel the export makes of a pixel of alpha [alpha]. *)
Definition binary_pixel (alpha : option Z) : Z * Z * Z * Z :=
  match alpha with
  | Some a => if (0 <? a)%Z then white else black
  | None => black
  end.

(** [alpha > 0], where [alpha] read out of range is [undefined], which
    is not [> 0]. *)
Definition painted (alpha : option Z) : bool :=
  match alpha with Some a => (0 <? a)%Z | None => false end.

(** The body of the loop of [getMaskDataUrl] at index [i].  Writing a
    typed array out of range does nothing. *)
Definition binarize_at (data : list Z) (i : nat) : list Z :=
  let alpha := data !! (i + 3) in
  if painted alpha
  then <[i + 3 := 255%Z]>
         (<[i + 2 := 255%Z]> (<[i + 1 := 255%Z]> (<[i := 255%Z]> data)))
  else <[i + 3 := 255%Z]>
         (<[i + 2 := 0%Z]> (<[i + 1 := 0%Z]> (<[i := 0%Z]> data))).

(** [for (let i = 0; i < data.length; i += 4)], with fuel for the
    iterations. *)
Fixpoint binarize_loop (fuel : nat) (i : nat) (data : list Z) : list Z :=
  match fuel with
  | O => data
  | S fuel' =>
      if i <? length data
      then binarize_loop fuel' (i + 4) (binarize_at data i)
      else data
  end.

Definition binarize (data : list Z) : list Z :=
  binarize_loop (length data) 0 data.

(** The PNG data URL of a canvas: PNG being lossless, it is represented
    by the pixels it encodes. *)
Inductive DataUrl := PngOf (img : ImageData).

Definition toDataURL (c : Canvas) : DataUrl := PngOf (getImageData c).

Definition png_pixels (u : DataUrl) : list Z :=
  match u with PngOf img => i_data img end.

Definition getMaskDataUrl `{Raster} (maskCanvas : option Canvas)
    (temp_has2d : bool) : option DataUrl :=
  match maskCanvas with
  | None => None
  | Some mc =>
      let tempCanvas := createCanvas temp_has2d (c_width mc) (c_height mc) in
      match getContext tempCanvas with
      | None => None
      | Some ctx =>
          let ctx := drawImage mc ctx in
          let imageData := getImageData ctx in
          let data := binarize (i_data imageData) in
          let imageData :=
            mkImageData (i_width imageData) (i_height imageData) data in
          let ctx := putImageData imageData ctx in
          Some (toDataURL ctx)
      end
  end.

Local Close Scope nat_scope.

(** ** App.tsx: the state of the component

    The [useState] cells the handlers below read or write, and the refs
    [maskCanvasRef], [containerRef], [isDraggingRef], [lastPosRef]. *)

Record State := mkState {
  appState : AppState;
  baseImage : option string;
  processedImage : option string;
  tool : ToolType;
  brushSize : Q;
  transform : Transform;
  history : list ImageData;
  objectSource : option ObjectSource;
  selectedModel : string;
  maskCanvas : option Canvas;
  container : option Container;
  isDragging : bool;
  lastPos : option Point
}.

Definition setAppState (v : AppState) (s : State) : State :=
  mkState v (baseImage s) (processedImage s) (tool s) (brushSize s)
    (transform s) (history s) (objectSource s) (selectedModel s)
    (maskCanvas s) (container s) (isDragging s) (lastPos s).

Definition setBaseImage (v : option string) (s : State) : State :=
  mkState (appState s) v (processedImage s) (tool s) (brushSize s)
    (transform s) (history s) (objectSource s) (selectedModel s)
    (maskCanvas s) (container s) (isDragging s) (lastPos s).

Definition setProcessedImage (v : option string) (s : State) : State :=
  mkState (appState s) (baseImage s) v (tool s) (brushSize s)
    (transform s) (history s) (objectSource s) (selectedModel s)
    (maskCanvas s) (container s) (isDragging s) (lastPos s).

Definition setTool (v : ToolType) (s : State) : State :=
  mkState (appState s) (baseImage s) (processedImage s) v (brushSize s)
    (transform s) (history s) (objectSource s) (selectedModel s)
    (maskCanvas s) (container s) (isDragging s) (lastPos s).

Definition setTransform (v : Transform) (s : State) : State :=
  mkState (appState s) (baseImage s) (processedImage s) (tool s)
    (brushSize s) v (history s) (objectSource s) (selectedModel s)
    (maskCanvas s) (container s) (isDragging s) (lastPos s).

Definition setHistory (v : list ImageData) (s : State) : State :=
  mkState (appState s) (baseImage s) (processedImage s) (tool s)
    (brushSize s) (transform s) v (objectSource s) (selectedModel s)
    (maskCanvas s) (container s) (isDragging s) (lastPos s).

Definition setMaskCanvas (v : option Canvas) (s : State) : State :=
  mkState (appState s) (baseImage s) (processedImage s) (tool s)
    (brushSize s) (transform s) (history s) (objectSource s)
    (selectedModel s) v (container s) (isDragging s) (lastPos s).

Definition setIsDragging (v : bool) (s : State) : State :=
  mkState (appState s) (baseImage s) (processedImage s) (tool s)
    (brushSize s) (transform s) (history s) (objectSource s)
    (selectedModel s) (maskCanvas s) (container s) v (lastPos s).

Definition setLastPos (v : option Point) (s : State) : State :=
  mkState (appState s) (baseImage s) (processedImage s) (tool s)
    (brushSize s) (transform s) (history s) (objectSource s)
    (selectedModel s) (maskCanvas s) (container s) (isDragging s) v.

Definition setBrushSize (v : Q) (s : State) : State :=
  mkState (appState s) (baseImage s) (processedImage s) (tool s) v
    (transform s) (history s) (objectSource s) (selectedModel s)
    (maskCanvas s) (container s) (isDragging s) (lastPos s).

Definition setObjectSource (v : option ObjectSource) (s : State) : State :=
  mkState (appState s) (baseImage s) (processedImage s) (tool s)
    (brushSize s) (transform s) (history s) v (selectedModel s)
    (maskCanvas s) (container s) (isDragging s) (lastPos s).

Definition setSelectedModel (v : string) (s : State) : State :=
  mkState (appState s) (baseImage s) (processedImage s) (tool s)
    (brushSize s) (transform s) (history s) (objectSource s) v
    (maskCanvas s) (container s) (isDragging s) (lastPos s).

(** React attaching, moving or detaching the container element. *)
Definition setContainer (v : option Container) (s : State) : State :=
  mkState (appState s) (baseImage s) (processedImage s) (tool s)
    (brushSize s) (transform s) (history s) (objectSource s)
    (selectedModel s) (maskCanvas s) v (isDragging s) (lastPos s).

(** The initial values of the [useState] cells and of the refs. *)
Definition initialState : State :=
  mkState IDLE None None BRUSH 30 (mkTransform 0 0 1) [] None
    "gemini-3-pro-image-preview" None None false None.

(** A string in a condition: [null] and the empty string are falsy. *)
Definition truthy (s : option string) : bool :=
  match s with
  | Some EmptyString => false
  | Some _ => true
  | None => false
  end.

(** [l.slice(start)]: a negative [start] counts from the end. *)
Definition js_slice {A : Type} (start : Z) (l : list A) : list A :=
  let len := Z.of_nat (length l) in
  let k := if (start <? 0)%Z then Z.max (len + start) 0
           else Z.min start len in
  drop (Z.to_nat k) l.

(** ** App.tsx: painting and the undo history *)

(** [maskCanvasRef.current?.getContext('2d', ...)]. *)
Definition getMaskContext (s : State) : option Canvas :=
  mc ← maskCanvas s; getContext mc.

(** [paintMask(coords.x, coords.y)].  When [getImageCoords] has no finite
    result the arc has a non-finite argument, which the canvas ignores:
    nothing is filled. *)
Definition paintMask `{Raster} (coords : option Point) (s : State) : State :=
  match getMaskContext s with
  | None => s
  | Some ctx =>
      match coords with
      | Some p =>
          setMaskCanvas
            (Some (fillArc (p_x p) (p_y p) (brushSize s / 2) ctx)) s
      | None => s
      end
  end.

Definition saveHistory (s : State) : State :=
  match getMaskContext s, maskCanvas s with
  | Some ctx, Some _ =>
      let data := getImageData ctx in
      setHistory (js_slice (-10) (history s) ++ [data]) s
  | _, _ => s
  end.

(** [newHistory.pop()] leaves the list without its last element. *)
Definition js_pop {A : Type} (l : list A) : list A :=
  take (length l - 1) l.

Definition handleUndo (s : State) : State :=
  if (length (history s) <=? 1)%nat then s
  else
    let newHistory := js_pop (history s) in
    let previousState := newHistory !! (length newHistory - 1)%nat in
    let s := setHistory newHistory s in
    match getMaskContext s, previousState with
    | Some ctx, Some prev => setMaskCanvas (Some (putImageData prev ctx)) s
    | _, _ => s
    end.

Definition handleResetMask (s : State) : State :=
  match getMaskContext s, maskCanvas s with
  | Some ctx, Some _ => saveHistory (setMaskCanvas (Some (clearRect ctx)) s)
  | _, _ => s
  end.

Definition handleMouseDown `{Raster} (e : MouseEvent) (s : State) : State :=
  if negb (AppState_eqb (appState s) IDLE) then s
  else
    let s := setIsDragging true s in
    let coords := getImageCoords (container s) (transform s) e in
    let s := setLastPos (Some (mkPoint (clientX e) (clientY e))) s in
    if ToolType_eqb (tool s) BRUSH && bool_decide (is_Some (maskCanvas s))
    then paintMask coords s
    else s.

(** [handleMouseMove] of the canvas, in exact arithmetic.  It also puts
    the brush cursor at the pointer ([cursorCentre]); [panX64] is the
    translation of the hand tool in binary64. *)
Definition handleMouseMove `{Raster} (e : MouseEvent) (s : State) : State :=
  if negb (isDragging s) then s
  else if ToolType_eqb (tool s) HAND then
    let dx := clientX e - js_or (p_x <$> lastPos s) (clientX e) in
    let dy := clientY e - js_or (p_y <$> lastPos s) (clientY e) in
    let prev := transform s in
    let s := setTransform
               (mkTransform (t_x prev + dx) (t_y prev + dy) (t_k prev)) s in
    setLastPos (Some (mkPoint (clientX e) (clientY e))) s
  else if ToolType_eqb (tool s) BRUSH then
    paintMask (getImageCoords (container s) (transform s) e) s
  else s.

Definition handleMouseUp (s : State) : State :=
  let s := if isDragging s && ToolType_eqb (tool s) BRUSH
           then saveHistory s else s in
  setLastPos None (setIsDragging false s).

(** [reader.onload] of [handleFileUpload] and [handleDrop] for a base
    image. *)
Definition loadBaseImage (result : string) (s : State) : State :=
  setHistory []
    (setMaskCanvas None
       (setAppState IDLE
          (setProcessedImage None (setBaseImage (Some result) s)))).

(** [img.onload] of the initialisation effect, for an image of size
    [w] x [h], up to the mask canvas being installed; [has2d] says
    whether the new canvas gives a context. *)
Definition initMask (has2d : bool) (w h : nat) (s : State) : State :=
  let mc := createCanvas has2d w h in
  let s := match getContext mc with
           | Some ctx => setHistory [getImageData (clearRect ctx)] s
           | None => s
           end in
  setMaskCanvas (Some (match getContext mc with
                       | Some ctx => clearRect ctx
                       | None => mc
                       end)) s.

(** The whole of [img.onload]: the mask canvas, then
    [fitImageToScreen(img.width, img.height)].  [None]: a side of the
    image is zero and [fitImageToScreen] divides by it. *)
Definition initMaskCanvas (has2d : bool) (w h : nat) (s : State)
    : option State :=
  let s := initMask has2d w h s in
  t ← fitImageToScreen (container s) (transform s)
        (inject_Z (Z.of_nat w)) (inject_Z (Z.of_nat h));
  Some (setTransform t s).

Definition applyChanges (s : State) : State :=
  if truthy (processedImage s)
  then handleResetMask
         (setAppState IDLE
            (setProcessedImage None (setBaseImage (processedImage s) s)))
  else s.

(** The "discard" button of the comparison view. *)
Definition discardChanges (s : State) : State :=
  setProcessedImage None (setAppState IDLE s).

(** ** services/geminiService.ts *)

(** How an awaited promise ends: with a value, with an exception thrown
    at the [await], or never. *)
Inductive Promise (A : Type) :=
| Fulfilled (a : A)
| Rejected
| Pending.
Arguments Fulfilled {A} a.
Arguments Rejected {A}.
Arguments Pending {A}.

Record InlineData := mkInlineData {
  mimeType : option string;
  inline_data : option string
}.

Record Part := mkPart { inlineData : option InlineData }.

(** [`data:${mimeType || 'image/png'};base64,${data}`]. *)
Definition imageDataUrl (mime : option string) (data : string) : string :=
  ("data:" ++ (if truthy mime then default "image/png" mime
               else "image/png")
   ++ ";base64," ++ data)%string.

(** The loop over the parts of the first candidate: the first part with
    inline data is returned; with none the function throws. *)
Fixpoint firstImage (parts : list Part) : option string :=
  match parts with
  | [] => None
  | part :: rest =>
      match inlineData part with
      | Some d =>
          if truthy (inline_data d)
          then Some (imageDataUrl (mimeType d)
                       (default EmptyString (inline_data d)))
          else firstImage rest
      | None => firstImage rest
      end
  end.

(** What the outside world answers to one request: the API key of the
    environment and how [ai.models.generateContent] ends, with the parts
    of [response.candidates?.[0]?.content?.parts] when there are any. *)
Record Service := mkService {
  apiKey : option string;
  generateContent : Promise (option (list Part))
}.

(** The body shared by [placeObjectInImage] and [eraseObjectInImage]:
    [getAiClient] throws without a key, a failed request is rethrown,
    and so is a response without an image. *)
Definition requestImage (svc : Service) : Promise string :=
  if negb (truthy (apiKey svc)) then Rejected
  else
    match generateContent svc with
    | Fulfilled response =>
        match firstImage (default [] response) with
        | Some url => Fulfilled url
        | None => Rejected
        end
    | Rejected => Rejected
    | Pending => Pending
    end.

Definition placeObjectInImage (svc : Service)
    (baseImage : string) (maskImage : DataUrl) (objectImage : string)
    (modelName : string) : Promise string :=
  requestImage svc.

Definition eraseObjectInImage (svc : Service)
    (baseImage : string) (maskImage : DataUrl) (modelName : string)
    : Promise string :=
  requestImage svc.

(** ** App.tsx: the requests *)

(** What the browser does in [resizeImage]: whether the image loads,
    whether the canvas gives a context, and the PNG it encodes. *)
Record Resizer := mkResizer {
  image_loads : bool;
  resize_has2d : bool;
  resized_png : string
}.

Definition resizeImage (r : Resizer) (base64Str : string) (width height : nat)
    : Promise string :=
  if image_loads r
  then if resize_has2d r then Fulfilled (resized_png r)
       else Fulfilled base64Str
  else Pending.

Record Env := mkEnv {
  env_temp_has2d : bool;
  env_service : Service;
  env_resizer : Resizer
}.

Inductive Alert :=
| alert_place_missing   (* 请确保已有底图、蒙版区域和放置物体 *)
| alert_place_failed    (* 放置失败，请检查网络或 Key *)
| alert_erase_missing   (* 请确保已有底图和涂抹的蒙版区域 *)
| alert_erase_failed.   (* 擦除失败，请检查网络或 Key *)

(** What a handler does besides changing the state, in order. *)
Inductive Effect :=
| Alerted (a : Alert)
| ConsoleError
| CalledPlace (baseImage : string) (mask : DataUrl) (objectData : string)
    (model : string)
| CalledErase (baseImage : string) (mask : DataUrl) (model : string)
| CalledResize (image : string) (width height : nat).

Definition is_api_call (e : Effect) : bool :=
  match e with
  | CalledPlace _ _ _ _ | CalledErase _ _ _ => true
  | _ => false
  end.

(** The [try] block of [handlePlaceObject], up to the resized image.
    [mc] is [maskCanvasRef.current], which the guard has seen and which
    is read again once the API has answered; no other handler runs in
    between here. *)
Definition placeObject_try `{Raster} (env : Env) (base : string)
    (obj : ObjectSource) (mc : Canvas) (s : State)
    : list Effect * Promise string :=
  match getMaskDataUrl (maskCanvas s) (env_temp_has2d env) with
  | None => ([], Rejected)
  | Some maskDataUrl =>
      let call :=
        CalledPlace base maskDataUrl (os_data obj) (selectedModel s) in
      match placeObjectInImage (env_service env) base maskDataUrl
              (os_data obj) (selectedModel s) with
      | Fulfilled resultImage =>
          ([call; CalledResize resultImage (c_width mc) (c_height mc)],
           resizeImage (env_resizer env) resultImage
             (c_width mc) (c_height mc))
      | Rejected => ([call], Rejected)
      | Pending => ([call], Pending)
      end
  end.

Definition handlePlaceObject `{Raster} (env : Env) (s : State)
    : State * list Effect :=
  match baseImage s, objectSource s, maskCanvas s with
  | Some base, Some obj, Some mc =>
      if negb (truthy (baseImage s)) then (s, [Alerted alert_place_missing])
      else
        let s := setAppState PROCESSING s in
        match placeObject_try env base obj mc s with
        | (log, Fulfilled resizedImage) =>
            (setAppState COMPARING
               (setProcessedImage (Some resizedImage) s), log)
        | (log, Rejected) =>
            (setAppState IDLE s,
             log ++ [ConsoleError; Alerted alert_place_failed])
        | (log, Pending) => (s, log)
        end
  | _, _, _ => (s, [Alerted alert_place_missing])
  end.

(** The [try] block of [handleErase], up to the resized image. *)
Definition erase_try `{Raster} (env : Env) (base : string) (mc : Canvas)
    (s : State) : list Effect * Promise string :=
  match getMaskDataUrl (maskCanvas s) (env_temp_has2d env) with
  | None => ([], Rejected)
  | Some maskDataUrl =>
      let call := CalledErase base maskDataUrl (selectedModel s) in
      match eraseObjectInImage (env_service env) base maskDataUrl
              (selectedModel s) with
      | Fulfilled resultImage =>
          ([call; CalledResize resultImage (c_width mc) (c_height mc)],
           resizeImage (env_resizer env) resultImage
             (c_width mc) (c_height mc))
      | Rejected => ([call], Rejected)
      | Pending => ([call], Pending)
      end
  end.

Definition handleErase `{Raster} (env : Env) (s : State)
    : State * list Effect :=
  match baseImage s, maskCanvas s with
  | Some base, Some mc =>
      if negb (truthy (baseImage s)) then (s, [Alerted alert_erase_missing])
      else
        let s := setAppState PROCESSING s in
        match erase_try env base mc s with
        | (log, Fulfilled resizedImage) =>
            (setAppState COMPARING
               (setProcessedImage (Some resizedImage) s), log)
        | (log, Rejected) =>
            (setAppState IDLE s,
             log ++ [ConsoleError; Alerted alert_erase_failed])
        | (log, Pending) => (s, log)
        end
  | _, _ => (s, [Alerted alert_erase_missing])
  end.

(** The bracket keys, [-] and [=] of the keyboard handler. *)
Definition brushSmaller (s : State) : State :=
  if ToolType_eqb (tool s) BRUSH
  then setBrushSize (Qmax 5 (brushSize s - 5)) s else s.

Definition brushLarger (s : State) : State :=
  if ToolType_eqb (tool s) BRUSH
  then setBrushSize (Qmin 100 (brushSize s + 5)) s else s.

(** ** The events of the application *)

Inductive Event :=
| EvMouseDown (e : MouseEvent)
| EvMouseMove (e : MouseEvent)
| EvMouseUp
| EvMouseLeave
| EvUndo
| EvResetMask
| EvSetTool (t : ToolType)
| EvLoadBaseImage (result : string)
| EvApplyChanges
| EvDiscardChanges
| EvPlaceObject (env : Env)
| EvErase (env : Env)
| EvBrushSmaller
| EvBrushLarger
| EvSetObjectSource (o : option ObjectSource)
| EvSetModel (m : string)
| EvLayout (c : option Container).

Definition step `{Raster} (s : State) (ev : Event) : State :=
  match ev with
  | EvMouseDown e => handleMouseDown e s
  | EvMouseMove e => handleMouseMove e s
  | EvMouseUp => handleMouseUp s
  | EvMouseLeave => handleMouseUp s
  | EvUndo => handleUndo s
  | EvResetMask => handleResetMask s
  | EvSetTool t => setTool t s
  | EvLoadBaseImage result => loadBaseImage result s
  | EvApplyChanges => applyChanges s
  | EvDiscardChanges => discardChanges s
  | EvPlaceObject env => fst (handlePlaceObject env s)
  | EvErase env => fst (handleErase env s)
  | EvBrushSmaller => brushSmaller s
  | EvBrushLarger => brushLarger s
  | EvSetObjectSource o => setObjectSource o s
  | EvSetModel m => setSelectedModel m s
  | EvLayout c => setContainer c s
  end.

Definition run `{Raster} (s : State) (evs : list Event) : State :=
  foldl step s evs.

(** The states the application can be in: from the initial state, by
    the events above and by the base image finishing to load.  The
    transform may be any: this covers what [handleWheel] and
    [fitImageToScreen] set, also where the model does not follow their
    arithmetic. *)
Inductive reachable `{Raster} : State -> Prop :=
| reachable_initial : reachable initialState
| reachable_step s ev : reachable s -> reachable (step s ev)
| reachable_image s has2d w h :
    reachable s -> reachable (initMask has2d w h s)
| reachable_transform s t : reachable s -> reachable (setTransform t s).

(** Every entry of the history was read from the mask canvas as it is
    sized now. *)
Definition history_matches_mask (s : State) : Prop :=
  forall ctx, getMaskContext s = Some ctx ->
    length (c_data ctx) = (4 * c_width ctx * c_height ctx)%nat /\
    Forall (fun d => i_width d = c_width ctx /\
                     i_height d = c_height ctx /\
                     length (i_data d) = length (c_data ctx))
           (history s).

(** A brush stroke: the button goes down, the pointer moves, the button
    goes up. *)
Definition stroke (down : MouseEvent) (moves : list MouseEvent)
    : list Event :=
  EvMouseDown down :: map EvMouseMove moves ++ [EvMouseUp].

(** ** A small session to run the model on

    A 2 x 1 mask whose first pixel is painted with a faint alpha, and the
    state of the application once a base image of that size is loaded,
    before the container is mounted. *)
Definition sampleMask : Canvas :=
  mkCanvas 2 1 [255; 0; 0; 7; 0; 0; 0; 0]%Z true.

Definition sampleUrl : string := "data:image/png;base64,AAAA".

Definition sampleLoaded : State :=
  mkState IDLE (Some sampleUrl) None BRUSH 30 (mkTransform 0 0 1)
    [mkImageData 2 1 [0; 0; 0; 0; 0; 0; 0; 0]%Z] None
    "gemini-3-pro-image-preview"
    (Some (mkCanvas 2 1 [0; 0; 0; 0; 0; 0; 0; 0]%Z true))
    None false None.

(** One stroke on the first pixel, the pointer at the origin. *)
Definition sampleStroke : list Event :=
  stroke (mkMouseEvent (1 # 2) (1 # 2)) [mkMouseEvent (1 # 2) (1 # 2)].

(** ** What a request leaves behind

    [s] is the state at the click, [s'] the state the handler leaves,
    [mc] the mask canvas at the click.  A failure of the mask export or
    of the API call ends in IDLE with both images as they were; the
    comparison view, or a new processed image, means the API call
    succeeded; and a successful call whose result is resized ends in
    COMPARING with the resized image. *)
Definition submission_outcome `{Raster} (env : Env) (mc : Canvas)
    (s s' : State) : Prop :=
  let mask := getMaskDataUrl (Some mc) (env_temp_has2d env) in
  let api := requestImage (env_service env) in
  (mask = None \/ api = Rejected ->
   appState s' = IDLE /\
   baseImage s' = baseImage s /\
   processedImage s' = processedImage s) /\
  (appState s' = COMPARING \/ processedImage s' <> processedImage s ->
   is_Some mask /\ exists r, api = Fulfilled r) /\
  (forall r z,
     is_Some mask -> api = Fulfilled r ->
     resizeImage (env_resizer env) r (c_width mc) (c_height mc)
       = Fulfilled z ->
     appState s' = COMPARING /\
     processedImage s' = Some z /\
     baseImage s' = baseImage s).

(** An environment in which everything works, and one without API key. *)
Definition sampleService : Service :=
  mkService (Some "key"%string)
    (Fulfilled (Some [mkPart None;
                      mkPart (Some (mkInlineData None (Some "QUJD"%string)))])).

Definition sampleEnv : Env :=
  mkEnv true sampleService (mkResizer true true sampleUrl).

Definition sampleEnvNoKey : Env :=
  mkEnv true (mkService None Pending) (mkResizer true true sampleUrl).

Definition sampleObject : ObjectSource :=
  mkObjectSource src_image sampleUrl (Some sampleUrl).

Definition sampleBlank : Canvas :=
  mkCanvas 2 1 [0; 0; 0; 0; 0; 0; 0; 0]%Z true.

(** Two canvases of the same size, with or without a context alike. *)
Definition same_shape (c c' : Canvas) : Prop :=
  c_width c' = c_width c /\ c_height c' = c_height c /\
  length (c_data c') = length (c_data c) /\ c_has2d c' = c_has2d c.

(** ** App.tsx: the keyboard shortcuts *)

Record KeyboardEvent := mkKeyboardEvent {
  key : string;
  metaKey : bool;
  ctrlKey : bool
}.

(** [toLowerCase] on the letters A to Z; other bytes are left alone.  The
    handler compares the result with ["b"], ["h"] and ["z"] only, and no
    character outside A to Z is lowered to one of these. *)
Definition ascii_lower (c : ascii) : ascii :=
  let n := nat_of_ascii c in
  if ((65 <=? n) && (n <=? 90))%nat then ascii_of_nat (n + 32) else c.

Fixpoint toLowerCase (s : string) : string :=
  match s with
  | EmptyString => EmptyString
  | String c rest => String (ascii_lower c) (toLowerCase rest)
  end.

(** [document.activeElement?.tagName] is one of INPUT, TEXTAREA,
    SELECT. *)
Definition in_form_field (tagName : option string) : bool :=
  match tagName with
  | Some t => (t =? "INPUT")%string || (t =? "TEXTAREA")%string
              || (t =? "SELECT")%string
  | None => false
  end.

(** [handleKeyDown] of the shortcuts effect.  [tool] in the last test is
    the tool of the render the listener was installed in, that is, of
    [s]; [setBrushSize] gets an updater. *)
Definition handleKeyDown (activeTag : option string) (e : KeyboardEvent)
    (s : State) : State :=
  if in_form_field activeTag then s
  else
    let k := toLowerCase (key e) in
    let s1 := if (k =? "b")%string then setTool BRUSH s else s in
    let s2 := if (k =? "h")%string then setTool HAND s1 else s1 in
    let s3 := if (metaKey e || ctrlKey e) && (k =? "z")%string
              then handleUndo s2 else s2 in
    if ToolType_eqb (tool s) BRUSH then
      let s4 := if (key e =? "[")%string || (key e =? "-")%string
                then setBrushSize (Qmax 5 (brushSize s3 - 5)) s3 else s3 in
      if (key e =? "]")%string || (key e =? "=")%string
      then setBrushSize (Qmin 100 (brushSize s4 + 5)) s4 else s4
    else s3.

(** A run of key presses, each with the element that has the focus. *)
Definition handleKeys (s : State)
    (presses : list (option string * KeyboardEvent)) : State :=
  foldl (fun st p => handleKeyDown (fst p) (snd p) st) s presses.

(** The size of the brush cursor on screen:
    [width: brushSize * transform.k], and the same for the height. *)
Definition cursorSize (s : State) : Q := brushSize s * t_k (transform s).

(** ** services/geminiService.ts: the payload of a data URL *)

(** [s.split(sep)] for a separator of one character. *)
Fixpoint split_on (sep : ascii) (s : string) : list string :=
  match s with
  | EmptyString => [EmptyString]
  | String c rest =>
      if Ascii.eqb c sep then EmptyString :: split_on sep rest
      else match split_on sep rest with
           | piece :: pieces => String c piece :: pieces
           | [] => [String c EmptyString]
           end
  end.

(** [dataUrl.split(',')[1]]; [None] is [undefined]. *)
Definition cleanBase64 (dataUrl : string) : option string :=
  split_on ","%char dataUrl !! 1%nat.

Fixpoint has_char (c : ascii) (s : string) : bool :=
  match s with
  | EmptyString => false
  | String d rest => Ascii.eqb d c || has_char c rest
  end.

(** ** App.tsx: generating the object from a prompt *)

(** The prompt as UTF-16 code units, which is what [trim] looks at. *)
Definition JsString := list N.

(** White space and line terminators of ECMAScript. *)
Definition is_js_space (c : N) : bool :=
  match c with
  | 9 | 10 | 11 | 12 | 13 | 32 | 160 | 5760
  | 8192 | 8193 | 8194 | 8195 | 8196 | 8197 | 8198 | 8199 | 8200 | 8201
  | 8202 | 8232 | 8233 | 8239 | 8287 | 12288 | 65279 => true
  | _ => false
  end%N.

Fixpoint drop_spaces (s : JsString) : JsString :=
  match s with
  | c :: rest => if is_js_space c then drop_spaces rest else s
  | [] => []
  end.

(** [s.trim()]. *)
Definition trim (s : JsString) : JsString :=
  reverse (drop_spaces (reverse (drop_spaces s))).

(** [generateImageFromText]: the client, the request and the loop over
    the parts are those of [requestImage]. *)
Definition generateImageFromText (svc : Service) (prompt : JsString)
    : Promise string :=
  requestImage svc.

Inductive GenerateEffect :=
| GenerateRequested (prompt : JsString)
| GenerateAlerted.   (* 生成物体失败，请重试 *)

(** [handleGenerateObject]: the state it leaves, the value of
    [isGeneratingObject] it leaves, and what it did.  [busy] is
    [isGeneratingObject] at the click. *)
Definition handleGenerateObject (svc : Service) (textPrompt : JsString)
    (busy : bool) (s : State) : State * bool * list GenerateEffect :=
  match trim textPrompt with
  | [] => (s, busy, [])
  | _ :: _ =>
      match generateImageFromText svc textPrompt with
      | Fulfilled base64Image =>
          (setObjectSource
             (Some (mkObjectSource src_text base64Image (Some base64Image)))
             s,
           false, [GenerateRequested textPrompt])
      | Rejected => (s, false, [GenerateRequested textPrompt; GenerateAlerted])
      | Pending => (s, true, [GenerateRequested textPrompt])
      end
  end.

(** [reader.onload] of [handleFileUpload] and [handleDrop] for the
    object image. *)
Definition loadObjectImage (result : string) (s : State) : State :=
  setObjectSource (Some (mkObjectSource src_image result (Some result))) s.

(** The sample state with the container mounted, and in the middle of a
    drag with the hand tool. *)
Definition sampleRect : Container := mkContainer 10 20 800 800 600.

Definition sampleMounted : State := setContainer (Some sampleRect) sampleLoaded.

Definition samplePanning : State :=
  setLastPos (Some (mkPoint 110 70))
    (setIsDragging true (setTool HAND sampleMounted)).

(** The sample state in the comparison view, and an environment in which
    the API answers but the answer does not load as an image. *)
Definition sampleComparing : State :=
  setProcessedImage (Some sampleUrl) (setAppState COMPARING sampleLoaded).

Definition sampleEnvBrokenImage : Env :=
  mkEnv true sampleService (mkResizer false true sampleUrl).

(** What painting leaves alone: the history, the tool, and the shape of
    the mask canvas [ctx] the stroke began on. *)
Definition stroke_frame (ctx : Canvas) (s s' : State) : Prop :=
  history s' = history s /\ tool s' = tool s /\
  exists c, getMaskContext s' = Some c /\ same_shape ctx c.

(** The fields a request does not touch. *)
Definition request_frame (s s' : State) : Prop :=
  baseImage s' = baseImage s /\ maskCanvas s' = maskCanvas s /\
  history s' = history s /\ transform s' = transform s /\
  tool s' = tool s /\ brushSize s' = brushSize s /\
  objectSource s' = objectSource s /\ selectedModel s' = selectedModel s.

Definition brush_in_range (s : State) : Prop :=
  5 <= brushSize s /\ brushSize s <= 100.

(** The data URL a part gives, when it carries inline data. *)
Definition part_image (part : Part) : option string :=
  match inlineData part with
  | Some d =>
      if truthy (inline_data d)
      then Some (imageDataUrl (mimeType d)
                   (default EmptyString (inline_data d)))
      else None
  | None => None
  end.

(** ** The same arithmetic in binary64

    What the code computes: IEEE 754 doubles, rounded to nearest after
    every operation. *)

(** [Math.min] on doubles. *)
Definition js_min64 (a b : float) : float :=
  if (is_nan a || is_nan b)%bool then nan
  else if (a <? b)%float then a
  else if (b <? a)%float then b
  else if get_sign a then a else b.

(** [Math.max] on doubles. *)
Definition js_max64 (a b : float) : float :=
  if (is_nan a || is_nan b)%bool then nan
  else if (a <? b)%float then b
  else if (b <? a)%float then a
  else if get_sign a then b else a.

Record Transform64 := mkTransform64 {
  t64_x : float;
  t64_y : float;
  t64_k : float
}.

(** [fitImageToScreen] with the container mounted, [cw] and [ch] its
    client size. *)
Definition fitImageToScreen64 (cw ch w h : float) : Transform64 :=
  let padding := 40%float in
  let scale := js_min64 ((cw - padding) / w) ((ch - padding) / h) in
  mkTransform64 ((cw - w * scale) / 2) ((ch - h * scale) / 2) scale.


(** The updater of [handleWheel], [mouseX] and [mouseY] relative to the
    container. *)
Definition wheelUpdate64 (mouseX mouseY delta : float) (prev : Transform64)
    : Transform64 :=
  let newK := js_max64 0.1 (js_min64 (t64_k prev * delta) 5) in
  let kRatio := (newK / t64_k prev)%float in
  mkTransform64 (mouseX - (mouseX - t64_x prev) * kRatio)
                (mouseY - (mouseY - t64_y prev) * kRatio)
                newK.

Definition zoomIn64 : float := (1 + 0.1)%float.
Definition zoomOut64 : float := (1 - 0.1)%float.

(** The first coordinate [getImageCoords] returns, [cx] relative to the
    container. *)
Definition imageX64 (cx : float) (t : Transform64) : float :=
  ((cx - t64_x t) / t64_k t)%float.

(** The first coordinate of the transform after a move of the hand tool
    from [lastX] to [clientX], both not zero. *)
Definition panX64 (lastX clientX : float) (prev : Transform64) : float :=
  (t64_x prev + (clientX - lastX))%float.

(** The centre of the brush cursor, in client coordinates:
    [handleMouseMove] sets [left] and [top] of the cursor to [clientX]
    and [clientY], and the cursor is shifted back by half its size. *)
Definition cursorCentre (e : MouseEvent) : Point :=
  mkPoint (clientX e) (clientY e).

(** An environment whose result differs from the sample base image, and
    eleven strokes in a row. *)
Definition sampleResult : string := "data:image/png;base64,QkJC".

Definition sampleEnvResult : Env :=
  mkEnv true sampleService (mkResizer true true sampleResult).

Definition samplePaintedData : list Z := [255; 0; 0; 255; 255; 0; 0; 255]%Z.

Definition sampleStrokes (n : nat) : list Event :=
  concat (replicate n sampleStroke).


(** * Properties *)

(** ** Division *)

Lemma js_div_nonzero (a b : Q) : ~ b == 0 -> js_div a b = Some (a / b).
Proof.
  intros Hb. unfold js_div.
  destruct (Qeq_bool b 0) eqn:E; [|reflexivity].
  apply Qeq_bool_iff in E. contradiction.
Qed.

(** ** The pan/zoom transform *)

Lemma toScreen_spec (t : Transform) (p : Point) :
  Point_eq (toScreen t p)
           (mkPoint (t_k t * p_x p + t_x t) (t_k t * p_y p + t_y t)).
Proof. split; cbn; ring. Qed.

Lemma getImageCoords_mounted (rect : Container) (t : Transform)
    (e : MouseEvent) :
  ~ t_k t == 0 ->
  getImageCoords (Some rect) t e =
    Some (mkPoint ((clientX e - rect_left rect - t_x t) / t_k t)
                  ((clientY e - rect_top rect - t_y t) / t_k t)).
Proof.
  intros Hk. unfold getImageCoords.
  rewrite !js_div_nonzero by assumption. reflexivity.
Qed.

(** C1. With a scale [k <> 0], [getImageCoords] is the inverse of the
    transform [draw] applies: an image point sent to the screen by
    translate-then-scale is mapped back to itself, and a screen point
    mapped to image space is drawn back at that screen point. *)
Theorem getImageCoords_inverse_of_draw (rect : Container) (t : Transform)
    (p s : Point) :
  ~ t_k t == 0 ->
  (exists q, getImageCoords (Some rect) t (eventAt rect (toScreen t p)) = Some q
             /\ Point_eq q p) /\
  (exists q, getImageCoords (Some rect) t (eventAt rect s) = Some q
             /\ Point_eq (toScreen t q) s).
Proof.
  intros Hk. split; eexists; (split; [apply getImageCoords_mounted, Hk|]).
  - split; cbn; field; exact Hk.
  - split; cbn; field; exact Hk.
Qed.

Lemma getImageCoords_inverse_of_draw_witness :
  ~ t_k (mkTransform 30 (-5) (3 # 2)) == 0 /\
  (exists q, getImageCoords (Some (mkContainer 10 20 800 800 600))
               (mkTransform 30 (-5) (3 # 2))
               (eventAt (mkContainer 10 20 800 800 600)
                  (toScreen (mkTransform 30 (-5) (3 # 2))
                     (mkPoint 7 (1 # 3)))) = Some q
             /\ Point_eq q (mkPoint 7 (1 # 3))) /\
  (exists q, getImageCoords (Some (mkContainer 10 20 800 800 600))
               (mkTransform 30 (-5) (3 # 2))
               (eventAt (mkContainer 10 20 800 800 600) (mkPoint 100 50))
               = Some q
             /\ Point_eq (toScreen (mkTransform 30 (-5) (3 # 2)) q)
                         (mkPoint 100 50)).
Proof.
  split; [cbv; discriminate|].
  apply (getImageCoords_inverse_of_draw (mkContainer 10 20 800 800 600)
           (mkTransform 30 (-5) (3 # 2)) (mkPoint 7 (1 # 3))
           (mkPoint 100 50)).
  cbv; discriminate.
Defined.

(** The clamped scale never leaves [0.1, 5]. *)
Lemma clamp_scale_bounds (v : Q) :
  1 # 10 <= Qmax (1 # 10) (Qmin v 5) /\ Qmax (1 # 10) (Qmin v 5) <= 5.
Proof.
  split.
  - apply Q.le_max_l.
  - apply Q.max_lub; [lra | apply Q.le_min_r].
Qed.

Lemma wheelUpdate_nonzero (mx my delta : Q) (prev : Transform) :
  ~ t_k prev == 0 ->
  wheelUpdate mx my delta prev =
    let newK := Qmax (1 # 10) (Qmin (t_k prev * delta) 5) in
    Some (mkTransform (mx - (mx - t_x prev) * (newK / t_k prev))
                      (my - (my - t_y prev) * (newK / t_k prev))
                      newK).
Proof.
  intros Hk. unfold wheelUpdate.
  rewrite js_div_nonzero by assumption. reflexivity.
Qed.

(** Whatever the clamp does, the updater keeps the image point under the
    pointer where it is. *)
Lemma wheelUpdate_anchor (rect : Container) (delta : Q) (prev : Transform)
    (e : MouseEvent) :
  ~ t_k prev == 0 ->
  exists t' p p',
    wheelUpdate (clientX e - rect_left rect) (clientY e - rect_top rect)
                delta prev = Some t' /\
    getImageCoords (Some rect) prev e = Some p /\
    getImageCoords (Some rect) t' e = Some p' /\
    Point_eq p p'.
Proof.
  intros Hk.
  pose proof (clamp_scale_bounds (t_k prev * delta)) as [Hlo _].
  rewrite wheelUpdate_nonzero by assumption. cbv zeta.
  set (newK := Qmax (1 # 10) (Qmin (t_k prev * delta) 5)) in *.
  assert (HnewK : ~ newK == 0) by lra.
  do 3 eexists. split; [reflexivity|].
  split; [apply getImageCoords_mounted, Hk|].
  split; [apply getImageCoords_mounted; exact HnewK|].
  split; cbn; field; split; assumption.
Qed.

(** C5. Zoom is anchored at the cursor: when the new scale [k * delta]
    already lies in [0.1, 5], the image-space coordinates of the pointer
    given by [getImageCoords] are the same before and after [handleWheel]
    updates the transform. *)
Theorem handleWheel_anchored_at_cursor (appState : AppState)
    (container : option Container) (t : Transform) (e : WheelEvent) :
  1 # 10 <= t_k t * wheelDelta e ->
  t_k t * wheelDelta e <= 5 ->
  exists t' p p',
    handleWheel appState container t e = Some t' /\
    getImageCoords container t (wheelPointer e) = Some p /\
    getImageCoords container t' (wheelPointer e) = Some p' /\
    Point_eq p p'.
Proof.
  intros Hlo Hhi.
  assert (Hk : ~ t_k t == 0) by (intros Hz; rewrite Hz in Hlo; lra).
  assert (Hsame : forall c, exists p p',
            getImageCoords c t (wheelPointer e) = Some p /\
            getImageCoords c t (wheelPointer e) = Some p' /\
            Point_eq p p').
  { intros [rect|].
    - do 2 eexists. rewrite getImageCoords_mounted by assumption.
      repeat split; reflexivity.
    - do 2 eexists. repeat split; reflexivity. }
  unfold handleWheel.
  destruct (negb (AppState_eqb appState IDLE)).
  { exists t. destruct (Hsame container) as (p & p' & H). exists p, p'.
    split; [reflexivity | exact H]. }
  destruct container as [rect|].
  - destruct (wheelUpdate_anchor rect (wheelDelta e) t (wheelPointer e) Hk)
      as (t' & p & p' & Hu & Hp & Hp' & Heq).
    exists t', p, p'. repeat split; try assumption; apply Heq.
  - exists t. destruct (Hsame None) as (p & p' & H). exists p, p'.
    split; [reflexivity | exact H].
Qed.

Lemma handleWheel_anchored_at_cursor_witness :
  1 # 10 <= t_k (mkTransform 12 (-7) 2) * wheelDelta (mkWheelEvent 300 200 (-1))
  /\ t_k (mkTransform 12 (-7) 2) * wheelDelta (mkWheelEvent 300 200 (-1)) <= 5
  /\ exists t' p p',
    handleWheel IDLE (Some (mkContainer 10 20 800 800 600))
      (mkTransform 12 (-7) 2) (mkWheelEvent 300 200 (-1)) = Some t' /\
    getImageCoords (Some (mkContainer 10 20 800 800 600))
      (mkTransform 12 (-7) 2) (wheelPointer (mkWheelEvent 300 200 (-1)))
      = Some p /\
    getImageCoords (Some (mkContainer 10 20 800 800 600)) t'
      (wheelPointer (mkWheelEvent 300 200 (-1))) = Some p' /\
    Point_eq p p'.
Proof.
  split; [cbv; discriminate|]. split; [cbv; discriminate|].
  apply handleWheel_anchored_at_cursor; cbv; discriminate.
Defined.

(** ** The zoom bounds *)

Lemma handleWheel_handled (rect : Container) (t : Transform)
    (e : WheelEvent) :
  ~ t_k t == 0 ->
  exists t', handleWheel IDLE (Some rect) t e = Some t' /\
             scale_in_bounds t'.
Proof.
  intros Hk. cbn. rewrite wheelUpdate_nonzero by assumption.
  eexists. split; [reflexivity|]. apply clamp_scale_bounds.
Qed.

(** A wheel event, handled or ignored, keeps a scale that is in bounds
    in bounds. *)
Lemma handleWheel_preserves_bounds (s : WheelStep) (t : Transform) :
  scale_in_bounds t ->
  exists t', handleWheel (ws_appState s) (ws_container s) t (ws_event s)
               = Some t' /\ scale_in_bounds t'.
Proof.
  intros Hb.
  assert (Hk : ~ t_k t == 0) by (destruct Hb; lra).
  unfold handleWheel.
  destruct (negb _); [eauto|].
  destruct (ws_container s) as [rect|]; [|eauto].
  rewrite wheelUpdate_nonzero by assumption.
  eexists. split; [reflexivity|]. apply clamp_scale_bounds.
Qed.

Lemma handleWheels_preserve_bounds (steps : list WheelStep) :
  forall t, scale_in_bounds t ->
  exists t', handleWheels t steps = Some t' /\ scale_in_bounds t'.
Proof.
  induction steps as [|s rest IH]; intros t Hb; cbn.
  - eauto.
  - destruct (handleWheel_preserves_bounds s t Hb) as (t1 & -> & Hb1).
    cbn. apply IH, Hb1.
Qed.

(** C6 does not hold of every wheel event: one that arrives while a
    request is being processed is ignored by the guard on the app state,
    and a scale of 1/20 (as [fitImageToScreen] gives for a large image)
    stays below 0.1. *)
Lemma handleWheel_ignored_counterexample :
  0 < t_k (mkTransform 0 0 (1 # 20)) /\
  handleWheel PROCESSING (Some (mkContainer 0 0 800 800 600))
    (mkTransform 0 0 (1 # 20)) (mkWheelEvent 100 100 1)
  = Some (mkTransform 0 0 (1 # 20)) /\
  ~ scale_in_bounds (mkTransform 0 0 (1 # 20)).
Proof.
  split; [reflexivity|]. split; [reflexivity|].
  intros [H _]. revert H. cbv. intros H. apply H. reflexivity.
Qed.

(** C6, amended. A wheel event handled in the IDLE state with the
    container mounted, applied to a transform of positive scale, leaves a
    scale in [0.1, 5]; every later run of wheel events, handled or
    ignored, ends with a scale in [0.1, 5]. *)
Theorem handleWheel_scale_bounds (rect : Container) (t : Transform)
    (e : WheelEvent) (later : list WheelStep) :
  0 < t_k t ->
  exists t',
    handleWheel IDLE (Some rect) t e = Some t' /\
    scale_in_bounds t' /\
    exists t'', handleWheels t' later = Some t'' /\ scale_in_bounds t''.
Proof.
  intros Hpos.
  assert (Hk : ~ t_k t == 0) by lra.
  destruct (handleWheel_handled rect t e Hk) as (t' & Hw & Hb).
  exists t'. split; [exact Hw|]. split; [exact Hb|].
  apply handleWheels_preserve_bounds, Hb.
Qed.

Lemma handleWheel_scale_bounds_witness :
  0 < t_k (mkTransform 3 4 (1 # 20)) /\
  exists t',
    handleWheel IDLE (Some (mkContainer 0 0 800 800 600))
      (mkTransform 3 4 (1 # 20)) (mkWheelEvent 100 100 1) = Some t' /\
    scale_in_bounds t' /\
    exists t'',
      handleWheels t'
        [mkWheelStep IDLE (Some (mkContainer 0 0 800 800 600))
           (mkWheelEvent 50 60 (-3));
         mkWheelStep PROCESSING None (mkWheelEvent 50 60 2)] = Some t'' /\
      scale_in_bounds t''.
Proof.
  split; [reflexivity|].
  apply handleWheel_scale_bounds. reflexivity.
Defined.

(** ** Fitting the image to the container *)

Lemma fitImageToScreen_mounted (c : Container) (t : Transform) (w h : Q) :
  ~ w == 0 -> ~ h == 0 ->
  fitImageToScreen (Some c) t w h =
    let scale := Qmin ((clientWidth c - 40) / w) ((clientHeight c - 40) / h) in
    Some (mkTransform ((clientWidth c - w * scale) / 2)
                      ((clientHeight c - h * scale) / 2) scale).
Proof.
  intros Hw Hh. unfold fitImageToScreen, padding.
  rewrite !js_div_nonzero by assumption. reflexivity.
Qed.

Lemma scaled_side_le (a side k : Q) :
  0 < side -> k <= a / side -> side * k <= a.
Proof.
  intros Hs Hk.
  assert (E : a / side * side == a) by (field; lra).
  rewrite <- E. rewrite (Qmult_comm side k).
  apply Qmult_le_compat_r; lra.
Qed.

(** C10, amended. For a mounted container of client size [cw] x [ch]
    and an image of size [w] x [h] with [w, h > 0], [fitImageToScreen]
    sets the scale to [min ((cw - 40) / w) ((ch - 40) / h)] and the
    translation to [((cw - w k) / 2, (ch - h k) / 2)].  In exact
    rational arithmetic the rectangle [draw] then paints the image in
    has equal margins left and right, and above and below; when
    [cw > 40] and [ch > 40] the scale is positive and each margin is at
    least 20. *)
Theorem fitImageToScreen_fits_and_centers (c : Container) (t : Transform)
    (w h : Q) :
  0 < w -> 0 < h ->
  exists t',
    fitImageToScreen (Some c) t w h = Some t' /\
    t_k t' == Qmin ((clientWidth c - 40) / w) ((clientHeight c - 40) / h) /\
    t_x t' == (clientWidth c - w * t_k t') / 2 /\
    t_y t' == (clientHeight c - h * t_k t') / 2 /\
    let topLeft := toScreen t' (mkPoint 0 0) in
    let bottomRight := toScreen t' (mkPoint w h) in
    p_x topLeft - 0 == clientWidth c - p_x bottomRight /\
    p_y topLeft - 0 == clientHeight c - p_y bottomRight /\
    (40 < clientWidth c -> 40 < clientHeight c ->
     0 < t_k t' /\
     20 <= p_x topLeft /\ p_x topLeft < p_x bottomRight /\
     p_x bottomRight <= clientWidth c - 20 /\
     20 <= p_y topLeft /\ p_y topLeft < p_y bottomRight /\
     p_y bottomRight <= clientHeight c - 20).
Proof.
  intros Hw Hh.
  rewrite fitImageToScreen_mounted by lra. cbv zeta.
  set (cw := clientWidth c). set (ch := clientHeight c).
  set (k := Qmin ((cw - 40) / w) ((ch - 40) / h)).
  eexists. split; [reflexivity|].
  split; [reflexivity|]. split; [reflexivity|]. split; [reflexivity|].
  match goal with |- context [toScreen ?t' _] => set (fit := t') end.
  destruct (toScreen_spec fit (mkPoint 0 0)) as [Ex0 Ey0].
  destruct (toScreen_spec fit (mkPoint w h)) as [Ex1 Ey1].
  cbn [p_x p_y t_x t_y t_k fit] in Ex0, Ey0, Ex1, Ey1.
  rewrite Ex0, Ey0, Ex1, Ey1. clear Ex0 Ey0 Ex1 Ey1.
  rewrite (Qmult_comm k w), (Qmult_comm k h).
  split; [field|]. split; [field|].
  intros Hcw Hch.
  assert (Hkw : w * k <= cw - 40)
    by (apply scaled_side_le; [assumption | apply Q.le_min_l]).
  assert (Hkh : h * k <= ch - 40)
    by (apply scaled_side_le; [assumption | apply Q.le_min_r]).
  assert (Hk : 0 < k).
  { apply Q.min_glb_lt; apply Qlt_shift_div_l; lra. }
  assert (Hwk : 0 < w * k) by (apply Qmult_lt_0_compat; assumption).
  assert (Hhk : 0 < h * k) by (apply Qmult_lt_0_compat; assumption).
  cbn [t_k fit].
  set (a := w * k) in *. set (b := h * k) in *.
  clearbody a b. clear fit. clearbody k cw ch.
  assert (Ehalf : forall v, v / 2 == v * (1 # 2)) by (intros; field).
  rewrite !Ehalf.
  repeat split; try assumption; lra.
Qed.

Lemma fitImageToScreen_fits_and_centers_witness :
  0 < 1000 /\ 0 < 500 /\
  exists t',
    fitImageToScreen (Some (mkContainer 0 0 840 840 640))
      (mkTransform 0 0 1) 1000 500 = Some t' /\
    t_k t' == Qmin ((clientWidth (mkContainer 0 0 840 840 640) - 40) / 1000)
                   ((clientHeight (mkContainer 0 0 840 840 640) - 40) / 500)
    /\
    t_x t' == (clientWidth (mkContainer 0 0 840 840 640) - 1000 * t_k t') / 2
    /\
    t_y t' == (clientHeight (mkContainer 0 0 840 840 640) - 500 * t_k t') / 2
    /\
    let topLeft := toScreen t' (mkPoint 0 0) in
    let bottomRight := toScreen t' (mkPoint 1000 500) in
    p_x topLeft - 0
      == clientWidth (mkContainer 0 0 840 840 640) - p_x bottomRight /\
    p_y topLeft - 0
      == clientHeight (mkContainer 0 0 840 840 640) - p_y bottomRight /\
    (40 < clientWidth (mkContainer 0 0 840 840 640) ->
     40 < clientHeight (mkContainer 0 0 840 840 640) ->
     0 < t_k t' /\
     20 <= p_x topLeft /\ p_x topLeft < p_x bottomRight /\
     p_x bottomRight <= clientWidth (mkContainer 0 0 840 840 640) - 20 /\
     20 <= p_y topLeft /\ p_y topLeft < p_y bottomRight /\
     p_y bottomRight <= clientHeight (mkContainer 0 0 840 840 640) - 20).
Proof.
  split; [reflexivity|]. split; [reflexivity|].
  apply (fitImageToScreen_fits_and_centers (mkContainer 0 0 840 840 640)
           (mkTransform 0 0 1) 1000 500); reflexivity.
Defined.

(** ** The comparison slider *)

Lemma slider_clamp_pos (d w : Q) :
  0 < w -> 0 <= Qmax 0 (Qmin d w) /\ Qmax 0 (Qmin d w) <= w.
Proof.
  intros Hw. split.
  - apply Q.le_max_l.
  - apply Q.max_lub; [lra | apply Q.le_min_r].
Qed.

Lemma slider_clamp_neg (d w : Q) : w < 0 -> Qmax 0 (Qmin d w) == 0.
Proof.
  intros Hw. apply Q.max_l.
  pose proof (Q.le_min_r d w). lra.
Qed.

Lemma slider_percentage_bounds (d w : Q) :
  ~ w == 0 ->
  0 <= Qmax 0 (Qmin d w) / w * 100 /\ Qmax 0 (Qmin d w) / w * 100 <= 100.
Proof.
  intros Hw.
  destruct (Q_dec w 0) as [[Hneg | Hpos] | Hz]; [| |contradiction].
  - rewrite (slider_clamp_neg d w Hneg).
    assert (E : 0 / w * 100 == 0) by (field; assumption).
    rewrite E. lra.
  - destruct (slider_clamp_pos d w Hpos) as [Hlo Hhi].
    set (x := Qmax 0 (Qmin d w)) in *. clearbody x.
    assert (H0 : 0 <= x / w) by (apply Qle_shift_div_l; lra).
    assert (H1 : x / w <= 1) by (apply Qle_shift_div_r; lra).
    set (q := x / w) in *. clearbody q. lra.
Qed.

(** C9 does not hold of every container: dragging over one of width
    zero divides zero by zero, and the position set is [NaN], no number
    between 0 and 100. *)
Lemma slider_zero_width_counterexample :
  ComparisonSlider.isDragging (ComparisonSlider.mkState 50 true) = true /\
  ComparisonSlider.handleMouseMove
    (ComparisonSlider.mkState 50 true)
    (Some (mkContainer 0 0 0 0 0)) (mkMouseEvent 5 5) = None /\
  ~ (exists st',
       ComparisonSlider.handleMouseMove
         (ComparisonSlider.mkState 50 true)
         (Some (mkContainer 0 0 0 0 0)) (mkMouseEvent 5 5) = Some st' /\
       0 <= ComparisonSlider.sliderPosition st' /\
       ComparisonSlider.sliderPosition st' <= 100).
Proof.
  split; [reflexivity|]. split; [reflexivity|].
  intros (st' & Hmove & _). discriminate Hmove.
Qed.

(** C9, amended. While dragging over a mounted container whose width is
    not zero, a mouse move sets the slider position to the horizontal
    offset of the cursor, clamped to [0, width], as a percentage of the
    width, and that lies between 0 and 100; when not dragging, the state
    is unchanged. *)
Theorem slider_position_in_range (st : ComparisonSlider.State)
    (rect : Container) (container : option Container) (e : MouseEvent) :
  ~ rect_width rect == 0 ->
  (ComparisonSlider.isDragging st = true ->
   exists st',
     ComparisonSlider.handleMouseMove st (Some rect) e = Some st' /\
     ComparisonSlider.sliderPosition st'
       == Qmax 0 (Qmin (clientX e - rect_left rect) (rect_width rect))
          / rect_width rect * 100 /\
     0 <= ComparisonSlider.sliderPosition st' /\
     ComparisonSlider.sliderPosition st' <= 100) /\
  (ComparisonSlider.isDragging st = false ->
   ComparisonSlider.handleMouseMove st container e = Some st).
Proof.
  intros Hw. split; intros Hd; unfold ComparisonSlider.handleMouseMove;
    rewrite Hd; [|reflexivity].
  rewrite js_div_nonzero by assumption. cbn.
  eexists. split; [reflexivity|]. cbn. split; [reflexivity|].
  apply slider_percentage_bounds, Hw.
Qed.

Lemma slider_position_in_range_witness :
  ~ rect_width (mkContainer 100 0 400 400 300) == 0 /\
  (ComparisonSlider.isDragging (ComparisonSlider.mkState 50 true) = true ->
   exists st',
     ComparisonSlider.handleMouseMove (ComparisonSlider.mkState 50 true)
       (Some (mkContainer 100 0 400 400 300)) (mkMouseEvent 230 10)
     = Some st' /\
     ComparisonSlider.sliderPosition st'
       == Qmax 0 (Qmin (clientX (mkMouseEvent 230 10)
                        - rect_left (mkContainer 100 0 400 400 300))
                       (rect_width (mkContainer 100 0 400 400 300)))
          / rect_width (mkContainer 100 0 400 400 300) * 100 /\
     0 <= ComparisonSlider.sliderPosition st' /\
     ComparisonSlider.sliderPosition st' <= 100) /\
  (ComparisonSlider.isDragging (ComparisonSlider.mkState 50 true) = false ->
   ComparisonSlider.handleMouseMove (ComparisonSlider.mkState 50 true)
     None (mkMouseEvent 230 10)
   = Some (ComparisonSlider.mkState 50 true)).
Proof.
  split; [cbv; discriminate|].
  apply (slider_position_in_range (ComparisonSlider.mkState 50 true)
           (mkContainer 100 0 400 400 300) None (mkMouseEvent 230 10)).
  cbv; discriminate.
Defined.

(** ** The binary mask *)

Lemma length_binarize_at (data : list Z) (i : nat) :
  length (binarize_at data i) = length data.
Proof.
  unfold binarize_at. destruct (painted _); now rewrite !length_insert.
Qed.

Lemma length_binarize_loop (fuel : nat) :
  forall i data, length (binarize_loop fuel i data) = length data.
Proof.
  induction fuel as [|fuel IH]; intros i data; cbn [binarize_loop];
    [reflexivity|].
  destruct (i <? length data)%nat; [|reflexivity].
  now rewrite IH, length_binarize_at.
Qed.

Lemma length_binarize (data : list Z) :
  length (binarize data) = length data.
Proof. apply length_binarize_loop. Qed.

Lemma binary_pixel_painted (alpha : option Z) :
  binary_pixel alpha = if painted alpha then white else black.
Proof. destruct alpha as [a|]; cbn; [destruct (0 <? a)%Z|]; reflexivity. Qed.

(** One iteration rewrites pixel [k] and no other. *)
Lemma pixel_at_binarize_at (data : list Z) (k j : nat) :
  (4 * k + 3 < length data)%nat ->
  pixel_at (binarize_at data (4 * k)) j =
    if decide (j = k) then Some (binary_pixel (alpha_at data k))
    else pixel_at data j.
Proof.
  intros Hk. rewrite binary_pixel_painted.
  unfold binarize_at, alpha_at, pixel_at.
  destruct (decide (j = k)) as [->|Hne].
  - destruct (painted (data !! (4 * k + 3)%nat));
      repeat first
        [ rewrite list_lookup_insert_eq by (rewrite ?length_insert; lia)
        | rewrite list_lookup_insert_ne by lia ];
      reflexivity.
  - destruct (painted (data !! (4 * k + 3)%nat));
      rewrite !list_lookup_insert_ne by lia; reflexivity.
Qed.

Lemma alpha_at_binarize_at_other (data : list Z) (k j : nat) :
  j <> k -> alpha_at (binarize_at data (4 * k)) j = alpha_at data j.
Proof.
  intros Hne. unfold binarize_at, alpha_at.
  destruct (painted _); rewrite !list_lookup_insert_ne by lia; reflexivity.
Qed.

(** The loop, entered at pixel [k] with fuel for the pixels left, has
    rewritten every pixel from [k] on when it ends. *)
Lemma binarize_loop_pixels (n fuel : nat) :
  forall k data,
    length data = (4 * n)%nat ->
    (n <= k + fuel)%nat ->
    forall j, (j < n)%nat ->
      pixel_at (binarize_loop fuel (4 * k) data) j =
        if decide (j < k)%nat then pixel_at data j
        else Some (binary_pixel (alpha_at data j)).
Proof.
  induction fuel as [|fuel IH]; intros k data Hlen Hfuel j Hj;
    cbn [binarize_loop].
  - destruct (decide (j < k)%nat); [reflexivity | lia].
  - destruct (Nat.ltb_spec (4 * k) (length data)) as [Hin | Hout].
    + replace (4 * k + 4)%nat with (4 * S k)%nat by lia.
      rewrite IH by (rewrite ?length_binarize_at; lia).
      destruct (decide (j < S k)%nat) as [Hlt | Hge].
      * rewrite pixel_at_binarize_at by lia.
        destruct (decide (j = k)) as [->|Hne].
        -- destruct (decide (k < k)%nat); [lia | reflexivity].
        -- destruct (decide (j < k)%nat); [reflexivity | lia].
      * rewrite alpha_at_binarize_at_other by lia.
        destruct (decide (j < k)%nat); [lia | reflexivity].
    + destruct (decide (j < k)%nat); [reflexivity | lia].
Qed.

Lemma binarize_pixels (n : nat) (data : list Z) (j : nat) :
  length data = (4 * n)%nat -> (j < n)%nat ->
  pixel_at (binarize data) j = Some (binary_pixel (alpha_at data j)).
Proof.
  intros Hlen Hj. unfold binarize.
  change 0%nat with (4 * 0)%nat at 1.
  rewrite (binarize_loop_pixels n) by lia.
  destruct (decide (j < 0)%nat); [lia | reflexivity].
Qed.

(** ** Canvas operations *)

Lemma length_putImageData (img : ImageData) (ctx : Canvas) :
  length (c_data (putImageData img ctx)) = length (c_data ctx).
Proof. cbn. apply length_imap. Qed.

Lemma length_fillArc `{Raster} (x y r : Q) (ctx : Canvas) :
  length (c_data (fillArc x y r ctx)) = length (c_data ctx).
Proof. cbn. apply length_imap. Qed.

Lemma length_drawImage `{Raster} (src ctx : Canvas) :
  length (c_data (drawImage src ctx)) = length (c_data ctx).
Proof. cbn. apply length_imap. Qed.

Lemma lookup_drawImage `{Raster} (src ctx : Canvas) (i : nat) :
  (i < length (c_data ctx))%nat ->
  c_data (drawImage src ctx) !! i = Some (draw_image_byte src ctx i).
Proof.
  intros Hi. cbn. rewrite list_lookup_imap.
  destruct (lookup_lt_is_Some_2 (c_data ctx) i Hi) as [old ->].
  reflexivity.
Qed.

Lemma pixel_index (i w h : nat) :
  (i < 4 * w * h)%nat ->
  ((i / 4) mod w < w)%nat /\ ((i / 4) / w < h)%nat /\
  (((i / 4) / w * w + (i / 4) mod w) * 4 + i mod 4 = i)%nat.
Proof.
  intros Hi.
  assert (Hw : (w <> 0)%nat) by (intros ->; lia).
  assert (Hp : (i / 4 < w * h)%nat)
    by (apply Nat.Div0.div_lt_upper_bound; lia).
  split; [apply Nat.mod_upper_bound, Hw|].
  split; [apply Nat.Div0.div_lt_upper_bound, Hp|].
  pose proof (Nat.div_mod_eq (i / 4) w).
  pose proof (Nat.div_mod_eq i 4).
  lia.
Qed.

(** Image data of the size of the canvas replaces all of its pixels. *)
Lemma putImageData_same_size (img : ImageData) (ctx : Canvas) :
  i_width img = c_width ctx ->
  i_height img = c_height ctx ->
  length (i_data img) = length (c_data ctx) ->
  length (c_data ctx) = (4 * c_width ctx * c_height ctx)%nat ->
  c_data (putImageData img ctx) = i_data img.
Proof.
  intros Hw Hh Hlen Hwf. apply list_eq. intros i.
  unfold putImageData, set_data. cbn [c_data].
  rewrite list_lookup_imap.
  destruct (decide (i < length (c_data ctx))%nat) as [Hi | Hi].
  - destruct (lookup_lt_is_Some_2 (c_data ctx) i Hi) as [old ->].
    destruct (lookup_lt_is_Some_2 (i_data img) i ltac:(lia)) as [v Hv].
    destruct (pixel_index i (c_width ctx) (c_height ctx) ltac:(lia))
      as (Hx & Hy & Hidx).
    unfold fmap, option_fmap, option_map. cbv beta zeta.
    rewrite Hw, Hh, Hidx, Hv.
    apply Nat.ltb_lt in Hx, Hy. rewrite Hx, Hy. reflexivity.
  - rewrite (lookup_ge_None_2 (c_data ctx) i) by lia.
    rewrite (lookup_ge_None_2 (i_data img) i) by lia. reflexivity.
Qed.

Lemma length_createCanvas (has2d : bool) (w h : nat) :
  length (c_data (createCanvas has2d w h)) = (4 * w * h)%nat.
Proof. cbn. apply length_replicate. Qed.

(** C4. The mask sent to the API is strictly binary.  Provided that
    drawing the mask onto a fresh transparent canvas of its size keeps,
    for each pixel, whether its alpha is positive, [getMaskDataUrl]
    yields an image each of whose pixels is opaque white
    (255,255,255,255) when the mask pixel has alpha greater than 0 and
    opaque black (0,0,0,255) otherwise. *)
Theorem getMaskDataUrl_strictly_binary `{Raster} (mc : Canvas) :
  (forall j, (j < c_width mc * c_height mc)%nat ->
     painted (Some (draw_image_byte mc
                      (createCanvas true (c_width mc) (c_height mc))
                      (4 * j + 3)))
     = painted (alpha_at (c_data mc) j)) ->
  exists url,
    getMaskDataUrl (Some mc) true = Some url /\
    length (png_pixels url) = (4 * c_width mc * c_height mc)%nat /\
    forall j, (j < c_width mc * c_height mc)%nat ->
      pixel_at (png_pixels url) j
      = Some (match alpha_at (c_data mc) j with
              | Some a => if (0 <? a)%Z then white else black
              | None => black
              end).
Proof.
  intros Hdraw. eexists. split; [reflexivity|].
  set (temp := createCanvas true (c_width mc) (c_height mc)).
  set (drawn := drawImage mc temp).
  assert (Hlen : length (c_data drawn) = (4 * c_width mc * c_height mc)%nat).
  { unfold drawn. rewrite length_drawImage. apply length_createCanvas. }
  cbn [png_pixels toDataURL getImageData i_data].
  rewrite putImageData_same_size;
    [ | reflexivity | reflexivity
      | cbn [i_data]; apply length_binarize | exact Hlen ].
  cbn [i_data].
  split; [rewrite length_binarize; exact Hlen|].
  intros j Hj.
  rewrite (binarize_pixels (c_width mc * c_height mc)) by lia.
  f_equal. fold (binary_pixel (alpha_at (c_data mc) j)).
  rewrite !binary_pixel_painted, <- (Hdraw j Hj).
  unfold alpha_at, drawn.
  rewrite lookup_drawImage
    by (unfold temp; rewrite length_createCanvas; lia).
  reflexivity.
Qed.

Lemma getMaskDataUrl_strictly_binary_witness :
  (forall j, (j < c_width sampleMask * c_height sampleMask)%nat ->
     painted (Some (@draw_image_byte plainRaster sampleMask
                      (createCanvas true (c_width sampleMask)
                         (c_height sampleMask))
                      (4 * j + 3)))
     = painted (alpha_at (c_data sampleMask) j)) /\
  exists url,
    @getMaskDataUrl plainRaster (Some sampleMask) true = Some url /\
    length (png_pixels url)
    = (4 * c_width sampleMask * c_height sampleMask)%nat /\
    forall j, (j < c_width sampleMask * c_height sampleMask)%nat ->
      pixel_at (png_pixels url) j
      = Some (match alpha_at (c_data sampleMask) j with
              | Some a => if (0 <? a)%Z then white else black
              | None => black
              end).
Proof.
  assert (Hdraw : forall j,
            (j < c_width sampleMask * c_height sampleMask)%nat ->
            painted (Some (@draw_image_byte plainRaster sampleMask
                             (createCanvas true (c_width sampleMask)
                                (c_height sampleMask))
                             (4 * j + 3)))
            = painted (alpha_at (c_data sampleMask) j)).
  { intros j Hj. cbn in Hj.
    destruct j as [|[|j]]; [reflexivity | reflexivity | lia]. }
  split; [exact Hdraw|].
  exact (@getMaskDataUrl_strictly_binary plainRaster sampleMask Hdraw).
Defined.

(** ** The undo history *)

Lemma js_slice_last (A : Type) (n : nat) (l : list A) :
  js_slice (- Z.of_nat (S n)) l = drop (length l - S n) l.
Proof.
  unfold js_slice.
  destruct (Z.ltb_spec (- Z.of_nat (S n)) 0) as [_ | Hge]; [|lia].
  f_equal. lia.
Qed.

Lemma js_slice_10 (A : Type) (l : list A) :
  js_slice (-10) l = drop (length l - 10) l.
Proof. exact (js_slice_last A 9 l). Qed.

Lemma length_js_slice_10 (A : Type) (l : list A) :
  (length (js_slice (-10) l) <= 10)%nat.
Proof. rewrite js_slice_10, length_drop. lia. Qed.

Lemma length_js_pop (A : Type) (l : list A) :
  length (js_pop l) = (length l - 1)%nat.
Proof. unfold js_pop. rewrite length_take. lia. Qed.

Lemma js_pop_snoc (A : Type) (l : list A) (x : A) : js_pop (l ++ [x]) = l.
Proof.
  unfold js_pop. rewrite length_app. cbn [length].
  replace (length l + 1 - 1)%nat with (length l) by lia.
  apply take_app_length.
Qed.

Lemma saveHistory_with_context (s : State) (ctx : Canvas) :
  getMaskContext s = Some ctx ->
  saveHistory s
  = setHistory (js_slice (-10) (history s) ++ [getImageData ctx]) s.
Proof.
  intros Hctx. unfold saveHistory. rewrite Hctx.
  unfold getMaskContext in Hctx.
  destruct (maskCanvas s); [reflexivity | discriminate].
Qed.

Lemma saveHistory_without_context (s : State) :
  getMaskContext s = None -> saveHistory s = s.
Proof. intros Hctx. unfold saveHistory. now rewrite Hctx. Qed.

Lemma saveHistory_bound (s : State) :
  (length (history s) <= 11)%nat ->
  (length (history (saveHistory s)) <= 11)%nat.
Proof.
  intros Hb. destruct (getMaskContext s) as [ctx|] eqn:Hctx.
  - rewrite (saveHistory_with_context s ctx Hctx). cbn [history setHistory].
    rewrite length_app. cbn [length].
    pose proof (length_js_slice_10 _ (history s)). lia.
  - now rewrite saveHistory_without_context.
Qed.

Lemma history_paintMask `{Raster} (coords : option Point) (s : State) :
  history (paintMask coords s) = history s.
Proof.
  unfold paintMask. destruct (getMaskContext s); [|reflexivity].
  destruct coords; reflexivity.
Qed.

Lemma history_handleUndo (s : State) :
  history (handleUndo s)
  = if (length (history s) <=? 1)%nat then history s
    else js_pop (history s).
Proof.
  unfold handleUndo. destruct (length (history s) <=? 1)%nat; [reflexivity|].
  cbv zeta. destruct (getMaskContext _); [|reflexivity].
  destruct (_ !! _); reflexivity.
Qed.

Lemma handleUndo_bound (s : State) :
  (length (history (handleUndo s)) <= length (history s))%nat.
Proof.
  rewrite history_handleUndo.
  destruct (length (history s) <=? 1)%nat; [lia|].
  rewrite length_js_pop. lia.
Qed.

Lemma handleResetMask_bound (s : State) :
  (length (history s) <= 11)%nat ->
  (length (history (handleResetMask s)) <= 11)%nat.
Proof.
  intros Hb. unfold handleResetMask.
  destruct (getMaskContext s); [|assumption].
  destruct (maskCanvas s); [|assumption].
  apply saveHistory_bound. exact Hb.
Qed.

Lemma history_handlePlaceObject `{Raster} (env : Env) (s : State) :
  history (fst (handlePlaceObject env s)) = history s.
Proof.
  unfold handlePlaceObject.
  destruct (baseImage s), (objectSource s), (maskCanvas s); try reflexivity.
  destruct (negb _); [reflexivity|].
  destruct (placeObject_try _ _ _ _ _) as [log [r | |]]; reflexivity.
Qed.

Lemma history_handleErase `{Raster} (env : Env) (s : State) :
  history (fst (handleErase env s)) = history s.
Proof.
  unfold handleErase.
  destruct (baseImage s), (maskCanvas s); try reflexivity.
  destruct (negb _); [reflexivity|].
  destruct (erase_try _ _ _ _) as [log [r | |]]; reflexivity.
Qed.

Lemma step_bound `{Raster} (s : State) (ev : Event) :
  (length (history s) <= 11)%nat ->
  (length (history (step s ev)) <= 11)%nat.
Proof.
  intros Hb. destruct ev; cbn [step].
  - unfold handleMouseDown. destruct (negb _); [assumption|].
    cbv zeta. destruct (_ && _); [rewrite history_paintMask|]; assumption.
  - unfold handleMouseMove. destruct (negb _); [assumption|].
    destruct (ToolType_eqb (tool s) HAND); [assumption|].
    destruct (ToolType_eqb (tool s) BRUSH);
      [rewrite history_paintMask|]; assumption.
  - unfold handleMouseUp. destruct (_ && _); cbn [history setLastPos
      setIsDragging]; [apply saveHistory_bound|]; assumption.
  - unfold handleMouseUp. destruct (_ && _); cbn [history setLastPos
      setIsDragging]; [apply saveHistory_bound|]; assumption.
  - pose proof (handleUndo_bound s). lia.
  - apply handleResetMask_bound, Hb.
  - assumption.
  - cbn. lia.
  - unfold applyChanges. destruct (truthy _); [|assumption].
    apply handleResetMask_bound. assumption.
  - assumption.
  - rewrite history_handlePlaceObject. assumption.
  - rewrite history_handleErase. assumption.
  - unfold brushSmaller. destruct (ToolType_eqb _ _); assumption.
  - unfold brushLarger. destruct (ToolType_eqb _ _); assumption.
  - assumption.
  - assumption.
  - assumption.
Qed.

Lemma initMask_bound (has2d : bool) (w h : nat) (s : State) :
  (length (history s) <= 11)%nat ->
  (length (history (initMask has2d w h s)) <= 11)%nat.
Proof. intros Hb. destruct has2d; cbn; [lia | assumption]. Qed.

Lemma reachable_bound `{Raster} (s : State) :
  reachable s -> (length (history s) <= 11)%nat.
Proof.
  induction 1 as [| s ev _ IH | s has2d w h _ IH | s t _ IH].
  - cbn. lia.
  - apply step_bound, IH.
  - apply initMask_bound, IH.
  - exact IH.
Qed.

Lemma reachable_run `{Raster} (evs : list Event) :
  forall s, reachable s -> reachable (run s evs).
Proof.
  induction evs as [|ev evs IH]; intros s Hs; [exact Hs|].
  apply IH. apply reachable_step, Hs.
Qed.

Lemma reachable_initMaskCanvas `{Raster} (has2d : bool) (w h : nat)
    (s s' : State) :
  reachable s -> initMaskCanvas has2d w h s = Some s' -> reachable s'.
Proof.
  intros Hs. unfold initMaskCanvas. cbv zeta.
  destruct (fitImageToScreen _ _ _ _) as [t|]; [|discriminate].
  intros [= <-]. apply reachable_transform, reachable_image, Hs.
Qed.

Lemma reachable_handleWheel `{Raster} (s : State) (e : WheelEvent)
    (t : Transform) :
  reachable s ->
  handleWheel (appState s) (container s) (transform s) e = Some t ->
  reachable (setTransform t s).
Proof. intros Hs _. apply reachable_transform, Hs. Qed.

Lemma sampleLoaded_reachable : @reachable plainRaster sampleLoaded.
Proof.
  apply (@reachable_image plainRaster
           (@step plainRaster initialState (EvLoadBaseImage sampleUrl))
           true 2%nat 1%nat).
  apply reachable_step, reachable_initial.
Qed.

(** C2. The undo history is bounded.  In every state the application can
    reach, a call to [saveHistory] keeps the 10 most recent entries (all
    of them when there are fewer) and appends the mask as it is now; the
    history holds at most 11 entries then, and after any further sequence
    of brush strokes, mask resets and other events. *)
Theorem history_never_exceeds_11 `{Raster} (s : State) (evs : list Event) :
  reachable s ->
  (forall ctx, getMaskContext s = Some ctx ->
     history (saveHistory s)
     = drop (length (history s) - 10) (history s) ++ [getImageData ctx]) /\
  (length (drop (length (history s) - 10) (history s)) <= 10)%nat /\
  (length (history s) <= 11)%nat /\
  (length (history (saveHistory s)) <= 11)%nat /\
  (length (history (run s evs)) <= 11)%nat.
Proof.
  intros Hs. pose proof (reachable_bound s Hs) as Hb.
  split.
  { intros ctx Hctx. rewrite (saveHistory_with_context s ctx Hctx).
    cbn [history setHistory]. now rewrite js_slice_10. }
  split; [rewrite length_drop; lia|].
  split; [exact Hb|].
  split; [apply saveHistory_bound, Hb|].
  apply reachable_bound, reachable_run, Hs.
Qed.

Lemma history_never_exceeds_11_witness :
  @reachable plainRaster sampleLoaded /\
  (forall ctx, getMaskContext sampleLoaded = Some ctx ->
     history (saveHistory sampleLoaded)
     = drop (length (history sampleLoaded) - 10) (history sampleLoaded)
       ++ [getImageData ctx]) /\
  (length (drop (length (history sampleLoaded) - 10)
             (history sampleLoaded)) <= 10)%nat /\
  (length (history sampleLoaded) <= 11)%nat /\
  (length (history (saveHistory sampleLoaded)) <= 11)%nat /\
  (length (history (@run plainRaster sampleLoaded
                      (sampleStroke ++ [EvResetMask] ++ sampleStroke)))
   <= 11)%nat.
Proof.
  split; [exact sampleLoaded_reachable|].
  apply (@history_never_exceeds_11 plainRaster).
  exact sampleLoaded_reachable.
Defined.

(** ** The history matches the mask *)

Lemma getMaskContext_Some (s : State) (ctx : Canvas) :
  getMaskContext s = Some ctx <->
  maskCanvas s = Some ctx /\ c_has2d ctx = true.
Proof.
  unfold getMaskContext, getContext.
  destruct (maskCanvas s) as [mc|]; cbn; [|split; [|intros [? _]]; discriminate].
  destruct (c_has2d mc) eqn:E; split.
  - intros [= <-]. auto.
  - intros [[= <-] _]. reflexivity.
  - discriminate.
  - intros [[= <-] ?]. congruence.
Qed.

Lemma matches_unchanged (s s' : State) :
  maskCanvas s' = maskCanvas s -> history s' = history s ->
  history_matches_mask s -> history_matches_mask s'.
Proof.
  intros Hm Hh Hinv ctx Hctx. rewrite Hh. apply Hinv.
  unfold getMaskContext in *. now rewrite <- Hm.
Qed.

(** Repainting the mask canvas keeps the invariant. *)
Lemma matches_repaint (s : State) (ctx ctx' : Canvas) :
  getMaskContext s = Some ctx -> same_shape ctx ctx' ->
  history_matches_mask s ->
  history_matches_mask (setMaskCanvas (Some ctx') s).
Proof.
  intros Hctx (Hw & Hh & Hl & H2d) Hinv c Hc.
  apply getMaskContext_Some in Hc as [[= <-] _].
  destruct (Hinv ctx Hctx) as [Hlen Hall].
  cbn [history setMaskCanvas]. rewrite Hw, Hh, Hl. split; [exact Hlen|].
  exact Hall.
Qed.

Lemma same_shape_fillArc `{Raster} (x y r : Q) (ctx : Canvas) :
  same_shape ctx (fillArc x y r ctx).
Proof. repeat split. apply length_fillArc. Qed.

Lemma same_shape_putImageData (img : ImageData) (ctx : Canvas) :
  same_shape ctx (putImageData img ctx).
Proof. repeat split. apply length_putImageData. Qed.

Lemma same_shape_clearRect (ctx : Canvas) : same_shape ctx (clearRect ctx).
Proof. repeat split. cbn. apply length_replicate. Qed.

Lemma matches_paintMask `{Raster} (coords : option Point) (s : State) :
  history_matches_mask s -> history_matches_mask (paintMask coords s).
Proof.
  intros Hinv. unfold paintMask.
  destruct (getMaskContext s) as [ctx|] eqn:Hctx; [|exact Hinv].
  destruct coords as [p|]; [|exact Hinv].
  eapply matches_repaint; eauto using same_shape_fillArc.
Qed.

Lemma matches_saveHistory (s : State) :
  history_matches_mask s -> history_matches_mask (saveHistory s).
Proof.
  intros Hinv. destruct (getMaskContext s) as [ctx|] eqn:Hctx.
  - rewrite (saveHistory_with_context s ctx Hctx). intros c Hc.
    assert (c = ctx) as -> by (unfold getMaskContext in *; cbn in Hc; congruence).
    destruct (Hinv ctx Hctx) as [Hlen Hall]. split; [exact Hlen|].
    cbn [history setHistory]. apply Forall_app. split.
    + rewrite js_slice_10. apply Forall_drop, Hall.
    + apply Forall_singleton. repeat split.
  - now rewrite saveHistory_without_context.
Qed.

Lemma matches_handleUndo (s : State) :
  history_matches_mask s -> history_matches_mask (handleUndo s).
Proof.
  intros Hinv. unfold handleUndo.
  destruct (length (history s) <=? 1)%nat; [exact Hinv|]. cbv zeta.
  assert (Hpop : history_matches_mask (setHistory (js_pop (history s)) s)).
  { intros ctx Hctx. destruct (Hinv ctx Hctx) as [Hlen Hall].
    split; [exact Hlen|]. cbn [history setHistory]. apply Forall_take, Hall. }
  destruct (getMaskContext _) as [ctx|] eqn:Hctx; [|exact Hpop].
  destruct (_ !! _) as [prev|]; [|exact Hpop].
  eapply matches_repaint; eauto using same_shape_putImageData.
Qed.

Lemma matches_handleResetMask (s : State) :
  history_matches_mask s -> history_matches_mask (handleResetMask s).
Proof.
  intros Hinv. unfold handleResetMask.
  destruct (getMaskContext s) as [ctx|] eqn:Hctx; [|exact Hinv].
  destruct (maskCanvas s); [|exact Hinv].
  apply matches_saveHistory.
  eapply matches_repaint; eauto using same_shape_clearRect.
Qed.

Lemma maskCanvas_handlePlaceObject `{Raster} (env : Env) (s : State) :
  maskCanvas (fst (handlePlaceObject env s)) = maskCanvas s.
Proof.
  unfold handlePlaceObject.
  destruct (baseImage s), (objectSource s), (maskCanvas s) eqn:E;
    try (cbn; congruence).
  destruct (negb _); [cbn; congruence|].
  destruct (placeObject_try _ _ _ _ _) as [log [r | |]]; cbn; congruence.
Qed.

Lemma maskCanvas_handleErase `{Raster} (env : Env) (s : State) :
  maskCanvas (fst (handleErase env s)) = maskCanvas s.
Proof.
  unfold handleErase.
  destruct (baseImage s), (maskCanvas s) eqn:E; try (cbn; congruence).
  destruct (negb _); [cbn; congruence|].
  destruct (erase_try _ _ _ _) as [log [r | |]]; cbn; congruence.
Qed.

Lemma step_matches `{Raster} (s : State) (ev : Event) :
  history_matches_mask s -> history_matches_mask (step s ev).
Proof.
  intros Hinv. destruct ev; cbn [step].
  - unfold handleMouseDown. destruct (negb _); [assumption|].
    cbv zeta. destruct (_ && _); [apply matches_paintMask|];
      eapply matches_unchanged; eauto; reflexivity.
  - unfold handleMouseMove. destruct (negb _); [assumption|].
    destruct (ToolType_eqb (tool s) HAND).
    { eapply matches_unchanged; eauto; reflexivity. }
    destruct (ToolType_eqb (tool s) BRUSH);
      [apply matches_paintMask|]; assumption.
  - unfold handleMouseUp.
    eapply matches_unchanged; [reflexivity | reflexivity |].
    destruct (_ && _); [apply matches_saveHistory|]; assumption.
  - unfold handleMouseUp.
    eapply matches_unchanged; [reflexivity | reflexivity |].
    destruct (_ && _); [apply matches_saveHistory|]; assumption.
  - apply matches_handleUndo, Hinv.
  - apply matches_handleResetMask, Hinv.
  - eapply matches_unchanged; eauto; reflexivity.
  - intros ctx Hctx. discriminate.
  - unfold applyChanges. destruct (truthy _); [|assumption].
    apply matches_handleResetMask.
    eapply matches_unchanged; eauto; reflexivity.
  - eapply matches_unchanged; eauto; reflexivity.
  - eapply matches_unchanged; eauto using maskCanvas_handlePlaceObject,
      history_handlePlaceObject.
  - eapply matches_unchanged; eauto using maskCanvas_handleErase,
      history_handleErase.
  - unfold brushSmaller. destruct (ToolType_eqb _ _); [|assumption].
    eapply matches_unchanged; eauto; reflexivity.
  - unfold brushLarger. destruct (ToolType_eqb _ _); [|assumption].
    eapply matches_unchanged; eauto; reflexivity.
  - eapply matches_unchanged; eauto; reflexivity.
  - eapply matches_unchanged; eauto; reflexivity.
  - eapply matches_unchanged; eauto; reflexivity.
Qed.

Lemma initMask_matches (has2d : bool) (w h : nat) (s : State) :
  history_matches_mask (initMask has2d w h s).
Proof.
  intros ctx Hctx. apply getMaskContext_Some in Hctx as [Hm H2d].
  destruct has2d; cbn in Hm; injection Hm as <-; [|discriminate].
  cbn [history initMask setMaskCanvas setHistory getContext createCanvas
       c_has2d c_width c_height c_data clearRect set_data getImageData].
  rewrite !length_replicate. split; [reflexivity|].
  apply Forall_singleton. repeat split. cbn. now rewrite !length_replicate.
Qed.

Lemma reachable_matches `{Raster} (s : State) :
  reachable s -> history_matches_mask s.
Proof.
  induction 1 as [| s ev _ IH | s has2d w h _ IH | s t _ IH].
  - intros ctx Hctx. discriminate.
  - apply step_matches, IH.
  - apply initMask_matches.
  - eapply matches_unchanged; eauto; reflexivity.
Qed.

(** ** Undo *)

Lemma head_handleUndo (s : State) :
  head (history (handleUndo s)) = head (history s).
Proof.
  rewrite history_handleUndo. unfold js_pop.
  destruct (history s) as [|a [|b l]]; reflexivity.
Qed.

Lemma head_iter_handleUndo (n : nat) (s : State) :
  head (history (Nat.iter n handleUndo s)) = head (history s).
Proof.
  induction n as [|n IH]; [reflexivity|].
  change (Nat.iter (S n) handleUndo s)
    with (handleUndo (Nat.iter n handleUndo s)).
  now rewrite head_handleUndo.
Qed.

Lemma handleUndo_short (s : State) :
  (length (history s) <= 1)%nat -> handleUndo s = s.
Proof.
  intros Hlen. unfold handleUndo.
  destruct (Nat.leb_spec (length (history s)) 1); [reflexivity | lia].
Qed.

(** With two entries or more and a mask context, [handleUndo] pops the
    newest entry and puts the one below it on the mask canvas. *)
Lemma handleUndo_long (s : State) (older : list ImageData)
    (prev newest : ImageData) (ctx : Canvas) :
  history s = older ++ [prev; newest] ->
  getMaskContext s = Some ctx ->
  handleUndo s
  = setMaskCanvas (Some (putImageData prev ctx))
      (setHistory (older ++ [prev]) s).
Proof.
  intros Hh Hctx. unfold handleUndo. rewrite Hh.
  destruct (Nat.leb_spec (length (older ++ [prev; newest])) 1) as [Hle|_].
  { rewrite length_app in Hle. cbn in Hle. lia. }
  cbv zeta.
  replace (older ++ [prev; newest]) with ((older ++ [prev]) ++ [newest])
    by (now rewrite <- app_assoc).
  rewrite js_pop_snoc.
  replace (length (older ++ [prev]) - 1)%nat with (length older)
    by (rewrite length_app; cbn; lia).
  rewrite list_lookup_middle by reflexivity.
  unfold getMaskContext in *. cbn [maskCanvas setHistory].
  now rewrite Hctx.
Qed.

Lemma two_or_more (A : Type) (l : list A) :
  (1 < length l)%nat -> exists older prev newest, l = older ++ [prev; newest].
Proof.
  intros Hlen.
  destruct l as [|x l] using rev_ind; [cbn in Hlen; lia|].
  destruct l as [|y l _] using rev_ind.
  { cbn in Hlen. lia. }
  exists l, y, x. now rewrite <- app_assoc.
Qed.

(** X24. In every state the application can reach: with at most one
    entry in the history, [handleUndo] changes nothing; with more, it
    removes exactly the newest entry, keeps the first one, and, the mask
    having a context, leaves on the mask canvas the pixels of the entry
    that is now last.  However often it is called, the first entry
    stays.  (The first entry is the initial clear state only until
    [saveHistory] drops it: see [initial_clear_state_evicted].) *)
Theorem handleUndo_restores_previous `{Raster} (s : State) :
  reachable s ->
  ((length (history s) <= 1)%nat -> handleUndo s = s) /\
  ((1 < length (history s))%nat ->
     (exists newest, history s = history (handleUndo s) ++ [newest]) /\
     (1 <= length (history (handleUndo s)))%nat /\
     head (history (handleUndo s)) = head (history s) /\
     forall ctx, getMaskContext s = Some ctx ->
       exists prev mask',
         last (history (handleUndo s)) = Some prev /\
         maskCanvas (handleUndo s) = Some mask' /\
         getImageData mask' = prev) /\
  (forall n, head (history (Nat.iter n handleUndo s)) = head (history s)).
Proof.
  intros Hs. split; [apply handleUndo_short|].
  split; [|intros n; apply head_iter_handleUndo].
  intros Hlen.
  destruct (two_or_more _ (history s) Hlen) as (older & prev & newest & Hh).
  assert (Hpop : history (handleUndo s) = older ++ [prev]).
  { rewrite history_handleUndo, Hh.
    destruct (Nat.leb_spec (length (older ++ [prev; newest])) 1) as [Hle|_].
    { rewrite length_app in Hle. cbn in Hle. lia. }
    replace (older ++ [prev; newest]) with ((older ++ [prev]) ++ [newest])
      by (now rewrite <- app_assoc).
    apply js_pop_snoc. }
  split.
  { exists newest. rewrite Hpop, Hh. now rewrite <- app_assoc. }
  split.
  { rewrite Hpop, length_app. cbn. lia. }
  split; [apply head_handleUndo|].
  intros ctx Hctx. exists prev, (putImageData prev ctx).
  split; [rewrite Hpop; apply last_snoc|].
  rewrite (handleUndo_long s older prev newest ctx Hh Hctx).
  split; [reflexivity|].
  destruct (reachable_matches s Hs ctx Hctx) as [Hwf Hall].
  rewrite Hh in Hall. apply Forall_app in Hall as [_ Hall].
  apply Forall_cons in Hall as [(Hw & Hht & Hl) _].
  unfold getImageData.
  rewrite putImageData_same_size by assumption.
  destruct prev as [pw ph pd]. cbn in *. now subst.
Qed.

Lemma handleUndo_restores_previous_witness :
  @reachable plainRaster (@run plainRaster sampleLoaded sampleStroke) /\
  ((length (history (@run plainRaster sampleLoaded sampleStroke)) <= 1)%nat
   -> handleUndo (@run plainRaster sampleLoaded sampleStroke)
      = @run plainRaster sampleLoaded sampleStroke) /\
  ((1 < length (history (@run plainRaster sampleLoaded sampleStroke)))%nat ->
     (exists newest,
        history (@run plainRaster sampleLoaded sampleStroke)
        = history (handleUndo (@run plainRaster sampleLoaded sampleStroke))
          ++ [newest]) /\
     (1 <= length (history
                     (handleUndo
                        (@run plainRaster sampleLoaded sampleStroke))))%nat /\
     head (history (handleUndo (@run plainRaster sampleLoaded sampleStroke)))
     = head (history (@run plainRaster sampleLoaded sampleStroke)) /\
     forall ctx,
       getMaskContext (@run plainRaster sampleLoaded sampleStroke)
       = Some ctx ->
       exists prev mask',
         last (history
                 (handleUndo (@run plainRaster sampleLoaded sampleStroke)))
         = Some prev /\
         maskCanvas (handleUndo (@run plainRaster sampleLoaded sampleStroke))
         = Some mask' /\
         getImageData mask' = prev) /\
  (forall n,
     head (history
             (Nat.iter n handleUndo
                (@run plainRaster sampleLoaded sampleStroke)))
     = head (history (@run plainRaster sampleLoaded sampleStroke))).
Proof.
  split; [apply reachable_run, sampleLoaded_reachable|].
  apply (@handleUndo_restores_previous plainRaster).
  apply reachable_run, sampleLoaded_reachable.
Defined.

(** ** Requests *)

Lemma getMaskDataUrl_Some `{Raster} (mc : Canvas) :
  is_Some (getMaskDataUrl (Some mc) true).
Proof. eexists. reflexivity. Qed.

Lemma handlePlaceObject_guard `{Raster} (env : Env) (s : State) :
  ~ (truthy (baseImage s) = true /\ is_Some (objectSource s)
     /\ is_Some (maskCanvas s)) ->
  handlePlaceObject env s = (s, [Alerted alert_place_missing]).
Proof.
  intros Hmissing. unfold handlePlaceObject.
  destruct (baseImage s) as [base|] eqn:Hb; [|reflexivity].
  destruct (objectSource s) as [obj|]; [|reflexivity].
  destruct (maskCanvas s) as [mc|]; [|reflexivity].
  destruct (truthy (Some base)) eqn:Ht; [|reflexivity].
  exfalso. apply Hmissing. repeat split; eauto.
Qed.

Lemma handleErase_guard `{Raster} (env : Env) (s : State) :
  ~ (truthy (baseImage s) = true /\ is_Some (maskCanvas s)) ->
  handleErase env s = (s, [Alerted alert_erase_missing]).
Proof.
  intros Hmissing. unfold handleErase.
  destruct (baseImage s) as [base|] eqn:Hb; [|reflexivity].
  destruct (maskCanvas s) as [mc|]; [|reflexivity].
  destruct (truthy (Some base)) eqn:Ht; [|reflexivity].
  exfalso. apply Hmissing. repeat split; eauto.
Qed.

(** Past its guard, [handlePlaceObject] is its [try] block and what
    follows it. *)
Lemma handlePlaceObject_request `{Raster} (env : Env) (s : State)
    (base : string) (obj : ObjectSource) (mc : Canvas) :
  baseImage s = Some base -> truthy (Some base) = true ->
  objectSource s = Some obj -> maskCanvas s = Some mc ->
  handlePlaceObject env s =
    let s1 := setAppState PROCESSING s in
    match placeObject_try env base obj mc s1 with
    | (log, Fulfilled resizedImage) =>
        (setAppState COMPARING (setProcessedImage (Some resizedImage) s1),
         log)
    | (log, Rejected) =>
        (setAppState IDLE s1,
         log ++ [ConsoleError; Alerted alert_place_failed])
    | (log, Pending) => (s1, log)
    end.
Proof.
  intros Hb Ht Ho Hm. unfold handlePlaceObject.
  rewrite Hb, Ho, Hm, Ht. reflexivity.
Qed.

Lemma handleErase_request `{Raster} (env : Env) (s : State)
    (base : string) (mc : Canvas) :
  baseImage s = Some base -> truthy (Some base) = true ->
  maskCanvas s = Some mc ->
  handleErase env s =
    let s1 := setAppState PROCESSING s in
    match erase_try env base mc s1 with
    | (log, Fulfilled resizedImage) =>
        (setAppState COMPARING (setProcessedImage (Some resizedImage) s1),
         log)
    | (log, Rejected) =>
        (setAppState IDLE s1,
         log ++ [ConsoleError; Alerted alert_erase_failed])
    | (log, Pending) => (s1, log)
    end.
Proof.
  intros Hb Ht Hm. unfold handleErase.
  rewrite Hb, Hm, Ht. reflexivity.
Qed.

Lemma truthy_Some (v : option string) :
  truthy v = true -> exists str, v = Some str.
Proof. destruct v; [eauto | discriminate]. Qed.

(** C7. [handlePlaceObject] calls the API only when a base image, an
    object source and a mask canvas are all there, and otherwise alerts
    and leaves the state as it is; [handleErase] asks for the base image
    and the mask canvas only, and calls the API whether or not there is
    an object source. *)
Theorem object_source_optional_for_erase `{Raster} (env : Env) (s : State) :
  (existsb is_api_call (snd (handlePlaceObject env s)) = true ->
   truthy (baseImage s) = true /\ is_Some (objectSource s)
   /\ is_Some (maskCanvas s)) /\
  (~ (truthy (baseImage s) = true /\ is_Some (objectSource s)
      /\ is_Some (maskCanvas s)) ->
   handlePlaceObject env s = (s, [Alerted alert_place_missing])) /\
  (truthy (baseImage s) = true -> is_Some (objectSource s) ->
   is_Some (maskCanvas s) -> env_temp_has2d env = true ->
   exists base mask obj rest,
     baseImage s = Some base /\ objectSource s = Some obj /\
     snd (handlePlaceObject env s)
     = CalledPlace base mask (os_data obj) (selectedModel s) :: rest) /\
  (truthy (baseImage s) = true -> is_Some (maskCanvas s) ->
   env_temp_has2d env = true ->
   exists base mask rest,
     baseImage s = Some base /\
     snd (handleErase env s)
     = CalledErase base mask (selectedModel s) :: rest) /\
  (~ (truthy (baseImage s) = true /\ is_Some (maskCanvas s)) ->
   handleErase env s = (s, [Alerted alert_erase_missing])).
Proof.
  split.
  { intros Hcall.
    destruct (truthy (baseImage s)) eqn:Ht;
      [destruct (objectSource s) as [obj|] eqn:Ho;
       [destruct (maskCanvas s) as [mc|] eqn:Hm|]|].
    - repeat split; eauto.
    - rewrite handlePlaceObject_guard in Hcall; [discriminate|].
      rewrite Hm. intros (_ & _ & [? ?]). discriminate.
    - rewrite handlePlaceObject_guard in Hcall; [discriminate|].
      rewrite Ho. intros (_ & [? ?] & _). discriminate.
    - rewrite handlePlaceObject_guard in Hcall; [discriminate|].
      intros (? & _). congruence. }
  split; [apply handlePlaceObject_guard|].
  split.
  { intros Ht [obj Ho] [mc Hm] Hctx.
    destruct (truthy_Some _ Ht) as [base Hb]. rewrite Hb in Ht.
    rewrite (handlePlaceObject_request env s base obj mc Hb Ht Ho Hm).
    cbv zeta. unfold placeObject_try.
    cbn [maskCanvas setAppState selectedModel]. rewrite Hm, Hctx.
    destruct (getMaskDataUrl_Some mc) as [mask ->].
    exists base, mask, obj.
    destruct (placeObjectInImage _ _ _ _ _) as [r | |].
    - destruct (resizeImage _ _ _ _); eexists; repeat split; eauto.
    - eexists; repeat split; eauto.
    - eexists; repeat split; eauto. }
  split; [|apply handleErase_guard].
  intros Ht [mc Hm] Hctx.
  destruct (truthy_Some _ Ht) as [base Hb]. rewrite Hb in Ht.
  rewrite (handleErase_request env s base mc Hb Ht Hm).
  cbv zeta. unfold erase_try.
  cbn [maskCanvas setAppState selectedModel]. rewrite Hm, Hctx.
  destruct (getMaskDataUrl_Some mc) as [mask ->].
  exists base, mask.
  destruct (eraseObjectInImage _ _ _ _) as [r | |].
  - destruct (resizeImage _ _ _ _); eexists; repeat split; eauto.
  - eexists; repeat split; eauto.
  - eexists; repeat split; eauto.
Qed.

Lemma object_source_optional_for_erase_witness :
  @handlePlaceObject plainRaster sampleEnv sampleLoaded
  = (sampleLoaded, [Alerted alert_place_missing]) /\
  exists base mask rest,
    baseImage sampleLoaded = Some base /\
    snd (@handleErase plainRaster sampleEnv sampleLoaded)
    = CalledErase base mask (selectedModel sampleLoaded) :: rest.
Proof.
  destruct (@object_source_optional_for_erase plainRaster sampleEnv
              sampleLoaded) as (_ & Hplace & _ & Herase & _).
  split.
  - apply Hplace. intros (_ & [obj Hobj] & _). discriminate Hobj.
  - apply Herase; [reflexivity | eexists; reflexivity | reflexivity].
Defined.

Ltac outcome_cases :=
  repeat match goal with
         | |- _ /\ _ => split
         | |- _ -> _ => intro
         | |- forall _, _ => intro
         | H : _ \/ _ |- _ => destruct H
         | H : is_Some None |- _ => destruct H; discriminate
         end;
  try congruence; try (eexists; reflexivity).

(** The state a request ends in, case by case. *)
Lemma submission_outcome_cases `{Raster} (env : Env) (mc : Canvas)
    (s s' : State) :
  s' = (let s1 := setAppState PROCESSING s in
        match getMaskDataUrl (Some mc) (env_temp_has2d env) with
        | None => setAppState IDLE s1
        | Some _ =>
            match requestImage (env_service env) with
            | Fulfilled r =>
                match resizeImage (env_resizer env) r
                        (c_width mc) (c_height mc) with
                | Fulfilled z =>
                    setAppState COMPARING (setProcessedImage (Some z) s1)
                | Rejected => setAppState IDLE s1
                | Pending => s1
                end
            | Rejected => setAppState IDLE s1
            | Pending => s1
            end
        end) ->
  submission_outcome env mc s s'.
Proof.
  intros ->. unfold submission_outcome. cbv zeta.
  destruct (getMaskDataUrl (Some mc) (env_temp_has2d env)) as [mask|];
    [destruct (requestImage (env_service env)) as [r | |];
     [destruct (resizeImage (env_resizer env) r (c_width mc) (c_height mc))
        as [z | |] eqn:Hz | |] |];
    cbn; outcome_cases.
Qed.

Lemma placeObject_outcome `{Raster} (env : Env) (s : State)
    (base : string) (obj : ObjectSource) (mc : Canvas) :
  baseImage s = Some base -> truthy (Some base) = true ->
  objectSource s = Some obj -> maskCanvas s = Some mc ->
  submission_outcome env mc s (fst (handlePlaceObject env s)).
Proof.
  intros Hb Ht Ho Hm. apply submission_outcome_cases.
  rewrite (handlePlaceObject_request env s base obj mc Hb Ht Ho Hm).
  cbv zeta. unfold placeObject_try, placeObjectInImage.
  cbn [maskCanvas setAppState]. rewrite Hm.
  destruct (getMaskDataUrl (Some mc) (env_temp_has2d env)) as [mask|];
    [|reflexivity].
  destruct (requestImage (env_service env)) as [r | |]; try reflexivity.
  destruct (resizeImage (env_resizer env) r (c_width mc) (c_height mc));
    reflexivity.
Qed.

Lemma erase_outcome `{Raster} (env : Env) (s : State)
    (base : string) (mc : Canvas) :
  baseImage s = Some base -> truthy (Some base) = true ->
  maskCanvas s = Some mc ->
  submission_outcome env mc s (fst (handleErase env s)).
Proof.
  intros Hb Ht Hm. apply submission_outcome_cases.
  rewrite (handleErase_request env s base mc Hb Ht Hm).
  cbv zeta. unfold erase_try, eraseObjectInImage.
  cbn [maskCanvas setAppState]. rewrite Hm.
  destruct (getMaskDataUrl (Some mc) (env_temp_has2d env)) as [mask|];
    [|reflexivity].
  destruct (requestImage (env_service env)) as [r | |]; try reflexivity.
  destruct (resizeImage (env_resizer env) r (c_width mc) (c_height mc));
    reflexivity.
Qed.

(** C8. A request is atomic on failure.  For a placement and for an
    erasure that pass their guard: when the mask export or the API call
    fails, the app state is back to IDLE and the base image and the
    processed image are those from before the request; the state is
    COMPARING, or the processed image is a new one, only when the API
    call succeeded; and then, the result once resized, the state is
    COMPARING and the processed image is the resized result. *)
Theorem submission_atomic_on_failure `{Raster} (env : Env) (s : State)
    (mc : Canvas) :
  truthy (baseImage s) = true ->
  maskCanvas s = Some mc ->
  (is_Some (objectSource s) ->
   submission_outcome env mc s (fst (handlePlaceObject env s))) /\
  submission_outcome env mc s (fst (handleErase env s)).
Proof.
  intros Ht Hm. destruct (truthy_Some _ Ht) as [base Hb].
  rewrite Hb in Ht. split.
  - intros [obj Ho]. exact (placeObject_outcome env s base obj mc Hb Ht Ho Hm).
  - exact (erase_outcome env s base mc Hb Ht Hm).
Qed.

Lemma submission_atomic_on_failure_witness :
  truthy (baseImage (setObjectSource (Some sampleObject) sampleLoaded))
  = true /\
  maskCanvas (setObjectSource (Some sampleObject) sampleLoaded)
  = Some sampleBlank /\
  (is_Some (objectSource (setObjectSource (Some sampleObject) sampleLoaded))
   -> @submission_outcome plainRaster sampleEnvNoKey sampleBlank
        (setObjectSource (Some sampleObject) sampleLoaded)
        (fst (@handlePlaceObject plainRaster sampleEnvNoKey
                (setObjectSource (Some sampleObject) sampleLoaded)))) /\
  @submission_outcome plainRaster sampleEnvNoKey sampleBlank
    (setObjectSource (Some sampleObject) sampleLoaded)
    (fst (@handleErase plainRaster sampleEnvNoKey
            (setObjectSource (Some sampleObject) sampleLoaded))).
Proof.
  split; [reflexivity|]. split; [reflexivity|].
  apply (@submission_atomic_on_failure plainRaster sampleEnvNoKey
           (setObjectSource (Some sampleObject) sampleLoaded) sampleBlank);
    reflexivity.
Defined.

(** ** The model at work *)

(** A data array cut short: the last pixel has no alpha byte, reads as
    not painted, and the write past the end is dropped. *)
Example binarize_ragged :
  binarize [1; 2; 3; 4; 5; 6; 7]%Z = [255; 255; 255; 255; 0; 0; 0]%Z.
Proof. reflexivity. Qed.

(** A stroke over the sample mask paints both pixels and adds an entry;
    undo takes the entry away and clears the mask again. *)
Example stroke_then_undo :
  let painted := @run plainRaster sampleLoaded sampleStroke in
  (c_data <$> maskCanvas painted)
  = Some [255; 0; 0; 255; 255; 0; 0; 255]%Z /\
  length (history painted) = 2%nat /\
  maskCanvas (handleUndo painted) = Some sampleBlank /\
  history (handleUndo painted) = history sampleLoaded.
Proof. repeat split; vm_compute; reflexivity. Qed.

(** Zooming in once at the pointer, from the identity transform. *)
Example wheel_zoom_in :
  handleWheel IDLE (Some (mkContainer 0 0 800 800 600))
    (mkTransform 0 0 1) (mkWheelEvent 100 50 (-1))
  = Some (mkTransform (100 - (100 - 0) * ((11 # 10) / 1))
                      (50 - (50 - 0) * ((11 # 10) / 1))
                      (11 # 10)).
Proof. reflexivity. Qed.

(** A request without API key fails and leaves the state idle. *)
Example erase_without_key :
  @handleErase plainRaster sampleEnvNoKey sampleLoaded
  = (sampleLoaded,
     [CalledErase sampleUrl
        (PngOf (mkImageData 2 1 [0; 0; 0; 255; 0; 0; 0; 255]%Z))
        (selectedModel sampleLoaded);
      ConsoleError; Alerted alert_erase_failed]).
Proof. reflexivity. Qed.

(** * Further properties *)

(** ** Fitting, zooming and the brush cursor *)

(** X1. The fit is tight, in exact rational arithmetic: for an image
    with positive sides in a mounted container wider and higher than the
    padding of 40, the scale is positive and the image rectangle [draw]
    paints has both its left and right margins equal to 20, or both its
    top and bottom margins equal to 20.  (In the code's doubles the
    margins are 20 up to rounding; see
    [fitImageToScreen_rounding_counterexample].) *)
Theorem fitImageToScreen_tight (c : Container) (t : Transform) (w h : Q) :
  0 < w -> 0 < h -> 40 < clientWidth c -> 40 < clientHeight c ->
  exists t',
    fitImageToScreen (Some c) t w h = Some t' /\
    0 < t_k t' /\
    let topLeft := toScreen t' (mkPoint 0 0) in
    let bottomRight := toScreen t' (mkPoint w h) in
    (p_x topLeft == 20 /\ clientWidth c - p_x bottomRight == 20) \/
    (p_y topLeft == 20 /\ clientHeight c - p_y bottomRight == 20).
Proof.
  intros Hw Hh Hcw Hch. rewrite fitImageToScreen_mounted by lra. cbv zeta.
  set (a := (clientWidth c - 40) / w). set (b := (clientHeight c - 40) / h).
  eexists. split; [reflexivity|]. cbn [t_k].
  split.
  { apply Q.min_glb_lt; apply Qlt_shift_div_l; lra. }
  match goal with |- context [toScreen ?t' _] => set (fit := t') end.
  destruct (toScreen_spec fit (mkPoint 0 0)) as [Ex0 Ey0].
  destruct (toScreen_spec fit (mkPoint w h)) as [Ex1 Ey1].
  cbn [p_x p_y t_x t_y t_k fit] in Ex0, Ey0, Ex1, Ey1.
  rewrite Ex0, Ey0, Ex1, Ey1. clear Ex0 Ey0 Ex1 Ey1 fit.
  destruct (Q.min_dec a b) as [E | E]; [left | right]; rewrite E;
    [unfold a | unfold b]; split; field; lra.
Qed.

Lemma fitImageToScreen_tight_witness :
  0 < 1000 /\ 0 < 500 /\
  40 < clientWidth (mkContainer 0 0 840 840 640) /\
  40 < clientHeight (mkContainer 0 0 840 840 640) /\
  exists t',
    fitImageToScreen (Some (mkContainer 0 0 840 840 640))
      (mkTransform 0 0 1) 1000 500 = Some t' /\
    0 < t_k t' /\
    let topLeft := toScreen t' (mkPoint 0 0) in
    let bottomRight := toScreen t' (mkPoint 1000 500) in
    (p_x topLeft == 20
     /\ clientWidth (mkContainer 0 0 840 840 640) - p_x bottomRight == 20) \/
    (p_y topLeft == 20
     /\ clientHeight (mkContainer 0 0 840 840 640) - p_y bottomRight == 20).
Proof.
  split; [reflexivity|]. split; [reflexivity|].
  split; [reflexivity|]. split; [reflexivity|].
  apply (fitImageToScreen_tight (mkContainer 0 0 840 840 640)
           (mkTransform 0 0 1) 1000 500); reflexivity.
Defined.

(** X2. At the limits the wheel does nothing, in exact rational
    arithmetic: zooming in at scale 5, or out at scale 0.1, leaves the
    scale and the translation as they are.  (In the code's doubles the
    scale stays and the translation moves by a rounding error; see
    [wheel_at_limit_rounds].) *)
Theorem handleWheel_at_limit (rect : Container) (t : Transform)
    (e : WheelEvent) :
  (t_k t == 5 /\ js_gt (deltaY e) 0 = false) \/
  (t_k t == 1 # 10 /\ js_gt (deltaY e) 0 = true) ->
  exists t',
    handleWheel IDLE (Some rect) t e = Some t' /\
    t_x t' == t_x t /\ t_y t' == t_y t /\ t_k t' == t_k t.
Proof.
  intros Hlim.
  assert (Hk : ~ t_k t == 0) by (destruct Hlim as [[E _] | [E _]]; lra).
  cbn [handleWheel AppState_eqb negb].
  rewrite wheelUpdate_nonzero by assumption. cbv zeta.
  set (newK := Qmax (1 # 10) (Qmin (t_k t * wheelDelta e) 5)).
  assert (HnewK : newK == t_k t).
  { unfold newK, wheelDelta, zoomIntensity.
    destruct Hlim as [[E ->] | [E ->]].
    - rewrite Q.min_r by lra. rewrite Q.max_r by lra. lra.
    - rewrite Q.min_l by lra. rewrite Q.max_l by lra. lra. }
  eexists. split; [reflexivity|]. cbn [t_x t_y t_k].
  rewrite HnewK. repeat split; try reflexivity; field; exact Hk.
Qed.

Lemma handleWheel_at_limit_witness :
  ((t_k (mkTransform 7 8 5) == 5 /\
    js_gt (deltaY (mkWheelEvent 100 50 (-1))) 0 = false) \/
   (t_k (mkTransform 7 8 5) == 1 # 10 /\
    js_gt (deltaY (mkWheelEvent 100 50 (-1))) 0 = true)) /\
  exists t',
    handleWheel IDLE (Some (mkContainer 0 0 800 800 600))
      (mkTransform 7 8 5) (mkWheelEvent 100 50 (-1)) = Some t' /\
    t_x t' == t_x (mkTransform 7 8 5) /\
    t_y t' == t_y (mkTransform 7 8 5) /\
    t_k t' == t_k (mkTransform 7 8 5).
Proof.
  assert (H : (t_k (mkTransform 7 8 5) == 5 /\
               js_gt (deltaY (mkWheelEvent 100 50 (-1))) 0 = false) \/
              (t_k (mkTransform 7 8 5) == 1 # 10 /\
               js_gt (deltaY (mkWheelEvent 100 50 (-1))) 0 = true))
    by (left; split; reflexivity).
  split; [exact H|].
  exact (handleWheel_at_limit (mkContainer 0 0 800 800 600)
           (mkTransform 7 8 5) (mkWheelEvent 100 50 (-1)) H).
Defined.

(** X3. Zooming in and then out at the same place does not give the
    scale back: in exact rational arithmetic, while neither step is
    clipped, one notch in and one notch out leave 99/100 of the scale.
    (In the code's doubles the factor is 99/100 up to rounding; see
    [wheel_in_then_out_rounds].) *)
Theorem wheel_in_then_out_drifts (rect : Container) (t : Transform)
    (x y up down : Q) :
  js_gt up 0 = false -> js_gt down 0 = true ->
  t_k t * (11 # 10) <= 5 -> 1 # 10 <= t_k t * (99 # 100) ->
  exists t',
    handleWheels t [mkWheelStep IDLE (Some rect) (mkWheelEvent x y up);
                    mkWheelStep IDLE (Some rect) (mkWheelEvent x y down)]
    = Some t' /\
    t_k t' == (99 # 100) * t_k t /\
    ~ t_k t' == t_k t.
Proof.
  intros Hup Hdown Hhi Hlo.
  assert (Hk : ~ t_k t == 0) by lra.
  cbn [handleWheels handleWheel AppState_eqb negb ws_appState ws_container
       ws_event w_clientX w_clientY].
  unfold wheelDelta. cbn [deltaY]. rewrite Hup, Hdown.
  rewrite wheelUpdate_nonzero by assumption. cbv zeta.
  set (k1 := Qmax (1 # 10) (Qmin (t_k t * (1 + zoomIntensity)) 5)).
  assert (Hk1 : k1 == t_k t * (11 # 10)).
  { unfold k1, zoomIntensity. rewrite Q.min_l by lra.
    rewrite Q.max_r by lra. lra. }
  cbn [mbind option_bind].
  rewrite wheelUpdate_nonzero by (cbn [t_k]; lra). cbv zeta. cbn [t_k t_x t_y].
  set (k2 := Qmax (1 # 10) (Qmin (k1 * (1 - zoomIntensity)) 5)).
  assert (Hk2 : k2 == (99 # 100) * t_k t).
  { unfold k2, zoomIntensity. rewrite Hk1. rewrite Q.min_l by lra.
    rewrite Q.max_r by lra. lra. }
  eexists. split; [reflexivity|]. cbn [t_k].
  split; [exact Hk2|]. rewrite Hk2. lra.
Qed.

Lemma wheel_in_then_out_drifts_witness :
  js_gt (-1) 0 = false /\ js_gt 1 0 = true /\
  t_k (mkTransform 3 4 2) * (11 # 10) <= 5 /\
  1 # 10 <= t_k (mkTransform 3 4 2) * (99 # 100) /\
  exists t',
    handleWheels (mkTransform 3 4 2)
      [mkWheelStep IDLE (Some (mkContainer 0 0 800 800 600))
         (mkWheelEvent 100 50 (-1));
       mkWheelStep IDLE (Some (mkContainer 0 0 800 800 600))
         (mkWheelEvent 100 50 1)]
    = Some t' /\
    t_k t' == (99 # 100) * t_k (mkTransform 3 4 2) /\
    ~ t_k t' == t_k (mkTransform 3 4 2).
Proof.
  split; [reflexivity|]. split; [reflexivity|].
  split; [cbv; discriminate|]. split; [cbv; discriminate|].
  apply wheel_in_then_out_drifts;
    [reflexivity | reflexivity | cbv; discriminate | cbv; discriminate].
Defined.

(** X4. The brush cursor shows where the brush paints, in exact
    rational arithmetic.  While dragging with the brush over a mounted
    container, at a scale that is not zero and with a mask context,
    [handleMouseMove] fills on the mask the arc of centre
    [getImageCoords e] and radius [brushSize / 2].  [draw] puts that
    centre at the centre of the cursor, and an image point at offset
    [(dx, dy)] from it at [k] times that offset; so the point lies in
    the filled disc exactly when it is drawn within [cursorSize / 2] of
    the centre of the cursor. *)
Theorem cursor_matches_brush `{Raster} (s : State) (rect : Container)
    (ctx : Canvas) (e : MouseEvent) (dx dy : Q) :
  isDragging s = true -> tool s = BRUSH ->
  container s = Some rect ->
  ~ t_k (transform s) == 0 ->
  getMaskContext s = Some ctx ->
  exists c,
    getImageCoords (container s) (transform s) e = Some c /\
    maskCanvas (handleMouseMove e s)
    = Some (fillArc (p_x c) (p_y c) (brushSize s / 2) ctx) /\
    let centre := toScreen (transform s) c in
    let q := toScreen (transform s) (mkPoint (p_x c + dx) (p_y c + dy)) in
    rect_left rect + p_x centre == p_x (cursorCentre e) /\
    rect_top rect + p_y centre == p_y (cursorCentre e) /\
    p_x q - p_x centre == t_k (transform s) * dx /\
    p_y q - p_y centre == t_k (transform s) * dy /\
    (dx * dx + dy * dy <= (brushSize s / 2) * (brushSize s / 2) <->
     (p_x q - p_x centre) * (p_x q - p_x centre)
     + (p_y q - p_y centre) * (p_y q - p_y centre)
     <= (cursorSize s / 2) * (cursorSize s / 2)).
Proof.
  intros Hd Ht Hc Hk Hctx.
  assert (Hcoords : getImageCoords (container s) (transform s) e
                    = Some (mkPoint
                              ((clientX e - rect_left rect - t_x (transform s))
                               / t_k (transform s))
                              ((clientY e - rect_top rect - t_y (transform s))
                               / t_k (transform s))))
    by (rewrite Hc; apply getImageCoords_mounted, Hk).
  eexists. split; [exact Hcoords|].
  split.
  { unfold handleMouseMove. rewrite Hd, Ht. cbn [negb ToolType_eqb].
    rewrite Hcoords. unfold paintMask. rewrite Hctx. reflexivity. }
  cbv zeta. cbn [cursorCentre p_x p_y].
  match goal with |- context [toScreen ?t (mkPoint (?a + dx) ?b)] =>
    destruct (toScreen_spec t (mkPoint (a + dx) b)) as [Ex Ey];
    set (q := toScreen t (mkPoint (a + dx) b)) in * end.
  match goal with |- context [toScreen ?t ?p] =>
    destruct (toScreen_spec t p) as [Cx Cy];
    set (centre := toScreen t p) in * end.
  cbn [p_x p_y] in Ex, Ey, Cx, Cy. clearbody q centre.
  set (k := t_k (transform s)) in *.
  assert (Hx : p_x q - p_x centre == k * dx)
    by (rewrite Ex, Cx; field; exact Hk).
  assert (Hy : p_y q - p_y centre == k * dy)
    by (rewrite Ey, Cy; field; exact Hk).
  split; [rewrite Cx; field; exact Hk|].
  split; [rewrite Cy; field; exact Hk|].
  split; [exact Hx|]. split; [exact Hy|].
  rewrite Hx, Hy. unfold cursorSize. fold k.
  set (b := brushSize s).
  assert (Hkk : 0 < k * k).
  { destruct (Q_dec k 0) as [[Hn | Hp] | Hz]; [| |contradiction].
    - assert (E : k * k == (- k) * (- k)) by ring.
      rewrite E. apply Qmult_lt_0_compat; lra.
    - apply Qmult_lt_0_compat; lra. }
  assert (E1 : k * dx * (k * dx) + k * dy * (k * dy)
               == (dx * dx + dy * dy) * (k * k)) by ring.
  assert (E2 : b * k / 2 * (b * k / 2) == (b / 2 * (b / 2)) * (k * k))
    by field.
  rewrite E1, E2. symmetry. apply Qmult_le_r. exact Hkk.
Qed.

Lemma cursor_matches_brush_witness :
  isDragging (setIsDragging true sampleMounted) = true /\
  tool (setIsDragging true sampleMounted) = BRUSH /\
  container (setIsDragging true sampleMounted) = Some sampleRect /\
  ~ t_k (transform (setIsDragging true sampleMounted)) == 0 /\
  getMaskContext (setIsDragging true sampleMounted) = Some sampleBlank /\
  exists c,
    getImageCoords (container (setIsDragging true sampleMounted))
      (transform (setIsDragging true sampleMounted)) (mkMouseEvent 11 21)
    = Some c /\
    maskCanvas (@handleMouseMove plainRaster (mkMouseEvent 11 21)
                  (setIsDragging true sampleMounted))
    = Some (@fillArc plainRaster (p_x c) (p_y c)
              (brushSize (setIsDragging true sampleMounted) / 2)
              sampleBlank) /\
    let centre := toScreen (transform (setIsDragging true sampleMounted)) c in
    let q := toScreen (transform (setIsDragging true sampleMounted))
               (mkPoint (p_x c + 3) (p_y c + 4)) in
    rect_left sampleRect + p_x centre
    == p_x (cursorCentre (mkMouseEvent 11 21)) /\
    rect_top sampleRect + p_y centre
    == p_y (cursorCentre (mkMouseEvent 11 21)) /\
    p_x q - p_x centre
    == t_k (transform (setIsDragging true sampleMounted)) * 3 /\
    p_y q - p_y centre
    == t_k (transform (setIsDragging true sampleMounted)) * 4 /\
    (3 * 3 + 4 * 4
     <= (brushSize (setIsDragging true sampleMounted) / 2)
        * (brushSize (setIsDragging true sampleMounted) / 2) <->
     (p_x q - p_x centre) * (p_x q - p_x centre)
     + (p_y q - p_y centre) * (p_y q - p_y centre)
     <= (cursorSize (setIsDragging true sampleMounted) / 2)
        * (cursorSize (setIsDragging true sampleMounted) / 2)).
Proof.
  split; [reflexivity|]. split; [reflexivity|]. split; [reflexivity|].
  split; [cbv; discriminate|]. split; [reflexivity|].
  apply (@cursor_matches_brush plainRaster (setIsDragging true sampleMounted)
           sampleRect sampleBlank (mkMouseEvent 11 21) 3 4);
    [reflexivity | reflexivity | reflexivity | cbv; discriminate
     | reflexivity].
Defined.

(** ** The comparison slider at its ends *)

(** X5. While dragging over a container of positive width, a pointer at
    or left of the left edge puts the slider at 0, one at or right of the
    right edge puts it at 100, and one in between puts it at its offset
    as a percentage of the width. *)
Theorem slider_ends (st : ComparisonSlider.State) (rect : Container)
    (e : MouseEvent) :
  ComparisonSlider.isDragging st = true ->
  0 < rect_width rect ->
  exists st',
    ComparisonSlider.handleMouseMove st (Some rect) e = Some st' /\
    ComparisonSlider.isDragging st' = true /\
    (clientX e <= rect_left rect ->
     ComparisonSlider.sliderPosition st' == 0) /\
    (rect_left rect + rect_width rect <= clientX e ->
     ComparisonSlider.sliderPosition st' == 100) /\
    (rect_left rect <= clientX e <= rect_left rect + rect_width rect ->
     ComparisonSlider.sliderPosition st'
     == (clientX e - rect_left rect) / rect_width rect * 100).
Proof.
  intros Hd Hw. unfold ComparisonSlider.handleMouseMove. rewrite Hd.
  rewrite js_div_nonzero by lra. cbn.
  eexists. split; [reflexivity|]. cbn. split; [reflexivity|].
  set (d := clientX e - rect_left rect). set (w := rect_width rect) in *.
  assert (Hd' : clientX e == d + rect_left rect) by (unfold d; ring).
  split; [|split].
  - intros Hle. rewrite Q.max_l.
    + field. lra.
    + pose proof (Q.le_min_l d w). lra.
  - intros Hge. rewrite Q.min_r by lra. rewrite Q.max_r by lra.
    field. lra.
  - intros [Hlo Hhi]. rewrite Q.min_l by lra. rewrite Q.max_r by lra.
    reflexivity.
Qed.

Lemma slider_ends_witness :
  ComparisonSlider.isDragging (ComparisonSlider.mkState 50 true) = true /\
  0 < rect_width (mkContainer 100 0 400 400 300) /\
  exists st',
    ComparisonSlider.handleMouseMove (ComparisonSlider.mkState 50 true)
      (Some (mkContainer 100 0 400 400 300)) (mkMouseEvent 730 10)
    = Some st' /\
    ComparisonSlider.isDragging st' = true /\
    (clientX (mkMouseEvent 730 10) <= rect_left (mkContainer 100 0 400 400 300)
     -> ComparisonSlider.sliderPosition st' == 0) /\
    (rect_left (mkContainer 100 0 400 400 300)
     + rect_width (mkContainer 100 0 400 400 300)
     <= clientX (mkMouseEvent 730 10) ->
     ComparisonSlider.sliderPosition st' == 100) /\
    (rect_left (mkContainer 100 0 400 400 300) <= clientX (mkMouseEvent 730 10)
     <= rect_left (mkContainer 100 0 400 400 300)
        + rect_width (mkContainer 100 0 400 400 300) ->
     ComparisonSlider.sliderPosition st'
     == (clientX (mkMouseEvent 730 10)
         - rect_left (mkContainer 100 0 400 400 300))
        / rect_width (mkContainer 100 0 400 400 300) * 100).
Proof.
  split; [reflexivity|]. split; [reflexivity|].
  apply slider_ends; reflexivity.
Defined.

(** ** Panning and painting *)

Lemma js_or_nonzero (q d : Q) : ~ q == 0 -> js_or (Some q) d = q.
Proof.
  intros Hq. unfold js_or. destruct (Qeq_bool q 0) eqn:E; [|reflexivity].
  apply Qeq_bool_iff in E. contradiction.
Qed.

Lemma js_or_zero (q d : Q) : q == 0 -> js_or (Some q) d = d.
Proof.
  intros Hq. unfold js_or. apply Qeq_bool_iff in Hq. now rewrite Hq.
Qed.

(** X6. Dragging with the hand tool moves the image with the pointer:
    the scale, the mask and the history stay, and, in exact rational
    arithmetic, the image point that was under the pointer at the last
    event is under it again.  This needs the last pointer position to
    have no coordinate equal to 0.  (In the code's doubles the point is
    the same up to rounding; see [pan_rounds].) *)
Theorem pan_follows_pointer `{Raster} (s : State) (rect : Container)
    (last : Point) (e : MouseEvent) :
  isDragging s = true -> tool s = HAND ->
  lastPos s = Some last -> ~ p_x last == 0 -> ~ p_y last == 0 ->
  container s = Some rect -> ~ t_k (transform s) == 0 ->
  let s' := handleMouseMove e s in
  t_k (transform s') = t_k (transform s) /\
  maskCanvas s' = maskCanvas s /\
  history s' = history s /\
  lastPos s' = Some (mkPoint (clientX e) (clientY e)) /\
  exists p p',
    getImageCoords (container s) (transform s)
      (mkMouseEvent (p_x last) (p_y last)) = Some p /\
    getImageCoords (container s') (transform s') e = Some p' /\
    Point_eq p p'.
Proof.
  intros Hd Ht Hl Hx Hy Hc Hk. unfold handleMouseMove.
  rewrite Hd, Ht, Hl. cbn [negb ToolType_eqb fmap option_fmap option_map].
  rewrite !js_or_nonzero by assumption.
  cbv zeta. cbn [transform maskCanvas history lastPos container
                 setLastPos setTransform t_k].
  repeat (split; [reflexivity|]).
  rewrite Hc. rewrite !getImageCoords_mounted by (cbn [t_k]; assumption).
  do 2 eexists. split; [reflexivity|]. split; [reflexivity|].
  split; cbn; field; exact Hk.
Qed.

Lemma pan_follows_pointer_witness :
  isDragging samplePanning = true /\ tool samplePanning = HAND /\
  lastPos samplePanning = Some (mkPoint 110 70) /\
  ~ p_x (mkPoint 110 70) == 0 /\ ~ p_y (mkPoint 110 70) == 0 /\
  container samplePanning = Some sampleRect /\
  ~ t_k (transform samplePanning) == 0 /\
  let s' := @handleMouseMove plainRaster (mkMouseEvent 150 40)
              samplePanning in
  t_k (transform s') = t_k (transform samplePanning) /\
  maskCanvas s' = maskCanvas samplePanning /\
  history s' = history samplePanning /\
  lastPos s' = Some (mkPoint (clientX (mkMouseEvent 150 40))
                       (clientY (mkMouseEvent 150 40))) /\
  exists p p',
    getImageCoords (container samplePanning) (transform samplePanning)
      (mkMouseEvent (p_x (mkPoint 110 70)) (p_y (mkPoint 110 70)))
    = Some p /\
    getImageCoords (container s') (transform s') (mkMouseEvent 150 40)
    = Some p' /\
    Point_eq p p'.
Proof.
  repeat (split; [first [reflexivity | cbv; discriminate]|]).
  apply (@pan_follows_pointer plainRaster samplePanning sampleRect
           (mkPoint 110 70) (mkMouseEvent 150 40));
    first [reflexivity | cbv; discriminate].
Defined.

(** X7. A last pointer position with a coordinate equal to 0 counts as
    missing in [lastPosRef.current?.x || e.clientX]: the hand tool then
    drops the movement along that axis. *)
Theorem pan_drops_movement_from_zero `{Raster} (s : State) (last : Point)
    (e : MouseEvent) :
  isDragging s = true -> tool s = HAND -> lastPos s = Some last ->
  (p_x last == 0 ->
   t_x (transform (handleMouseMove e s)) == t_x (transform s)) /\
  (p_y last == 0 ->
   t_y (transform (handleMouseMove e s)) == t_y (transform s)).
Proof.
  intros Hd Ht Hl. unfold handleMouseMove.
  rewrite Hd, Ht, Hl. cbn [negb ToolType_eqb fmap option_fmap option_map].
  cbv zeta. cbn [transform setLastPos setTransform t_x t_y].
  split; intros Hz; rewrite js_or_zero by assumption; ring.
Qed.

Lemma pan_drops_movement_from_zero_witness :
  isDragging (setLastPos (Some (mkPoint 0 70)) samplePanning) = true /\
  tool (setLastPos (Some (mkPoint 0 70)) samplePanning) = HAND /\
  lastPos (setLastPos (Some (mkPoint 0 70)) samplePanning)
  = Some (mkPoint 0 70) /\
  p_x (mkPoint 0 70) == 0 /\
  t_x (transform (@handleMouseMove plainRaster (mkMouseEvent 150 40)
                    (setLastPos (Some (mkPoint 0 70)) samplePanning)))
  == t_x (transform (setLastPos (Some (mkPoint 0 70)) samplePanning)).
Proof.
  repeat (split; [reflexivity|]).
  apply (@pan_drops_movement_from_zero plainRaster
           (setLastPos (Some (mkPoint 0 70)) samplePanning)
           (mkPoint 0 70) (mkMouseEvent 150 40)); reflexivity.
Defined.

Lemma run_app `{Raster} (s : State) (evs evs' : list Event) :
  run s (evs ++ evs') = run (run s evs) evs'.
Proof. apply foldl_app. Qed.

Lemma moves_without_drag `{Raster} (moves : list MouseEvent) (s : State) :
  isDragging s = false -> run s (map EvMouseMove moves) = s.
Proof.
  intros Hd. induction moves as [|e moves IH]; [reflexivity|].
  cbn [map run foldl step]. unfold handleMouseMove at 1.
  rewrite Hd. cbn [negb]. exact IH.
Qed.

(** X8. The canvas is locked while a request is processed or compared:
    with no drag under way, a whole stroke (button down, moves, button
    up) leaves the mask, the history and the transform as they are. *)
Theorem stroke_ignored_unless_idle `{Raster} (s : State) (down : MouseEvent)
    (moves : list MouseEvent) :
  appState s <> IDLE -> isDragging s = false ->
  run s (stroke down moves) = setLastPos None (setIsDragging false s).
Proof.
  intros Hst Hd. unfold stroke.
  change (EvMouseDown down :: map EvMouseMove moves ++ [EvMouseUp])
    with ([EvMouseDown down] ++ map EvMouseMove moves ++ [EvMouseUp]).
  rewrite !run_app.
  assert (Hdown : run s [EvMouseDown down] = s).
  { cbn [run foldl step]. unfold handleMouseDown.
    destruct (appState s); [contradiction | reflexivity | reflexivity]. }
  rewrite Hdown, moves_without_drag by assumption.
  cbn [run foldl step]. unfold handleMouseUp. now rewrite Hd.
Qed.

Lemma stroke_ignored_unless_idle_witness :
  appState (setAppState PROCESSING sampleLoaded) <> IDLE /\
  isDragging (setAppState PROCESSING sampleLoaded) = false /\
  @run plainRaster (setAppState PROCESSING sampleLoaded)
    (stroke (mkMouseEvent 1 1) [mkMouseEvent 2 2; mkMouseEvent 3 3])
  = setLastPos None
      (setIsDragging false (setAppState PROCESSING sampleLoaded)).
Proof.
  split; [discriminate|]. split; [reflexivity|].
  apply (@stroke_ignored_unless_idle plainRaster); [discriminate | reflexivity].
Defined.

(** ** Undo after a stroke and after a reset *)

Lemma same_shape_refl (c : Canvas) : same_shape c c.
Proof. repeat split. Qed.

Lemma same_shape_trans (a b c : Canvas) :
  same_shape a b -> same_shape b c -> same_shape a c.
Proof.
  intros (? & ? & ? & ?) (? & ? & ? & ?). repeat split; congruence.
Qed.

Lemma getMaskContext_setMaskCanvas (s : State) (c : Canvas) :
  c_has2d c = true -> getMaskContext (setMaskCanvas (Some c) s) = Some c.
Proof. intros H2d. apply getMaskContext_Some. split; [reflexivity | exact H2d]. Qed.

Lemma paintMask_frame `{Raster} (coords : option Point) (ctx : Canvas)
    (s0 s : State) :
  stroke_frame ctx s0 s -> stroke_frame ctx s0 (paintMask coords s).
Proof.
  intros (Hh & Ht & c & Hc & Hs). unfold paintMask. rewrite Hc.
  destruct coords as [p|]; [|repeat split; eauto].
  assert (H2d : c_has2d c = true) by (apply getMaskContext_Some in Hc; tauto).
  repeat split; try assumption.
  eexists. split; [apply getMaskContext_setMaskCanvas; exact H2d|].
  eapply same_shape_trans; [exact Hs | apply same_shape_fillArc].
Qed.

Lemma moves_frame `{Raster} (ctx : Canvas) (s0 : State)
    (moves : list MouseEvent) :
  forall s, stroke_frame ctx s0 s -> tool s0 = BRUSH -> isDragging s = true ->
    stroke_frame ctx s0 (run s (map EvMouseMove moves)) /\
    isDragging (run s (map EvMouseMove moves)) = true.
Proof.
  induction moves as [|e moves IH]; intros s Hf Ht Hd; [split; assumption|].
  cbn [map run foldl step]. apply IH; [|exact Ht|].
  - unfold handleMouseMove. rewrite Hd.
    destruct Hf as (Hh & Htool & Hc). rewrite Htool, Ht.
    cbn [negb ToolType_eqb]. apply paintMask_frame.
    repeat split; assumption.
  - unfold handleMouseMove. rewrite Hd.
    destruct Hf as (Hh & Htool & Hc). rewrite Htool, Ht.
    cbn [negb ToolType_eqb]. unfold paintMask.
    destruct (getMaskContext s); [destruct (getImageCoords _ _ _)|];
      exact Hd.
Qed.

Lemma handleUndo_reads (a b : State) :
  history a = history b -> maskCanvas a = maskCanvas b ->
  history (handleUndo a) = history (handleUndo b) /\
  maskCanvas (handleUndo a) = maskCanvas (handleUndo b).
Proof.
  intros Hh Hm. unfold handleUndo, getMaskContext. rewrite Hh.
  destruct (length (history b) <=? 1)%nat; [split; assumption|].
  cbv zeta. cbn [maskCanvas setHistory]. rewrite Hm.
  destruct (maskCanvas b ≫= _) as [ctx|];
    [destruct (js_pop (history b) !! _) as [prev|]|];
    split; cbn [history maskCanvas setMaskCanvas setHistory]; congruence.
Qed.

Lemma last_js_slice (A : Type) (l : list A) (x : A) :
  last l = Some x ->
  exists older, js_slice (-10) l = older ++ [x].
Proof.
  intros Hl. apply last_Some in Hl as [l' ->].
  rewrite js_slice_10, length_app. cbn [length].
  rewrite drop_app_le by lia. eauto.
Qed.

Lemma putImageData_back (ctx c : Canvas) :
  same_shape ctx c ->
  length (c_data ctx) = (4 * c_width ctx * c_height ctx)%nat ->
  putImageData (getImageData ctx) c = ctx.
Proof.
  intros (Hw & Hh & Hl & H2d) Hwf.
  assert (Hd : c_data (putImageData (getImageData ctx) c) = c_data ctx).
  { apply (putImageData_same_size (getImageData ctx) c);
      cbn [getImageData i_width i_height i_data]; try congruence. }
  destruct ctx as [w h d a]. unfold putImageData, set_data in *.
  cbn [c_width c_height c_data c_has2d] in *. subst. now rewrite Hd.
Qed.

(** Saving the mask and undoing at once puts back the mask the history
    ended with. *)
Lemma undo_after_save (ctx c : Canvas) (s : State) :
  getMaskContext s = Some c -> same_shape ctx c ->
  length (c_data ctx) = (4 * c_width ctx * c_height ctx)%nat ->
  last (history s) = Some (getImageData ctx) ->
  maskCanvas (handleUndo (saveHistory s)) = Some ctx /\
  history (handleUndo (saveHistory s)) = js_slice (-10) (history s).
Proof.
  intros Hc Hs Hwf Hl.
  destruct (last_js_slice _ _ _ Hl) as [older Hslice].
  rewrite (saveHistory_with_context s c Hc), Hslice.
  rewrite (handleUndo_long _ older (getImageData ctx) (getImageData c) c).
  - cbn [maskCanvas history setMaskCanvas setHistory].
    rewrite putImageData_back by assumption. split; reflexivity.
  - cbn [history setHistory]. now rewrite <- app_assoc.
  - exact Hc.
Qed.

(** X9. Undo takes a stroke back.  In a reachable idle state with the
    brush selected, whose mask is the one the history ends with, a
    stroke followed by undo leaves the mask canvas as it was before the
    stroke, and of the history its last ten entries. *)
Theorem undo_takes_stroke_back `{Raster} (s : State) (ctx : Canvas)
    (down : MouseEvent) (moves : list MouseEvent) :
  reachable s -> appState s = IDLE -> tool s = BRUSH ->
  getMaskContext s = Some ctx ->
  last (history s) = Some (getImageData ctx) ->
  maskCanvas (handleUndo (run s (stroke down moves))) = Some ctx /\
  history (handleUndo (run s (stroke down moves)))
  = drop (length (history s) - 10) (history s).
Proof.
  intros Hr Hidle Htool Hctx Hlast.
  destruct (reachable_matches s Hr ctx Hctx) as [Hwf _].
  unfold stroke.
  change (EvMouseDown down :: map EvMouseMove moves ++ [EvMouseUp])
    with ([EvMouseDown down] ++ map EvMouseMove moves ++ [EvMouseUp]).
  rewrite !run_app.
  set (s1 := run s [EvMouseDown down]).
  assert (H1 : stroke_frame ctx s s1 /\ isDragging s1 = true).
  { unfold s1. cbn [run foldl step]. unfold handleMouseDown.
    rewrite Hidle. cbn [AppState_eqb negb]. cbv zeta.
    assert (Hf : stroke_frame ctx s
                   (setLastPos (Some (mkPoint (clientX down) (clientY down)))
                      (setIsDragging true s))).
    { repeat split. exists ctx. split; [exact Hctx | apply same_shape_refl]. }
    destruct (_ && _).
    - split; [apply paintMask_frame, Hf|].
      unfold paintMask. destruct (getMaskContext _);
        [destruct (getImageCoords _ _ _)|]; reflexivity.
    - split; [exact Hf | reflexivity]. }
  destruct H1 as [Hf1 Hd1].
  destruct (moves_frame ctx s moves s1 Hf1 Htool Hd1) as [Hf2 Hd2].
  set (s2 := run s1 (map EvMouseMove moves)) in *.
  destruct Hf2 as (Hh2 & Ht2 & c & Hc2 & Hs2).
  cbn [run foldl step]. unfold handleMouseUp.
  rewrite Hd2, Ht2, Htool. cbn [andb ToolType_eqb].
  destruct (handleUndo_reads
              (setLastPos None (setIsDragging false (saveHistory s2)))
              (saveHistory s2) eq_refl eq_refl) as [-> ->].
  destruct (undo_after_save ctx c s2 Hc2 Hs2 Hwf) as [Hm Hh].
  { now rewrite Hh2. }
  rewrite Hm, Hh, Hh2, js_slice_10. split; reflexivity.
Qed.

Lemma undo_takes_stroke_back_witness :
  @reachable plainRaster sampleLoaded /\
  appState sampleLoaded = IDLE /\ tool sampleLoaded = BRUSH /\
  getMaskContext sampleLoaded = Some sampleBlank /\
  last (history sampleLoaded) = Some (getImageData sampleBlank) /\
  maskCanvas (handleUndo (@run plainRaster sampleLoaded sampleStroke))
  = Some sampleBlank /\
  history (handleUndo (@run plainRaster sampleLoaded sampleStroke))
  = drop (length (history sampleLoaded) - 10) (history sampleLoaded).
Proof.
  split; [exact sampleLoaded_reachable|].
  repeat (split; [reflexivity|]).
  apply (@undo_takes_stroke_back plainRaster sampleLoaded sampleBlank);
    first [exact sampleLoaded_reachable | reflexivity].
Defined.

(** X10. Undo takes a reset back: in a reachable state whose mask is the
    one the history ends with, [handleResetMask] followed by
    [handleUndo] leaves the mask canvas as it was, and of the history
    its last ten entries. *)
Theorem undo_takes_reset_back `{Raster} (s : State) (ctx : Canvas) :
  reachable s ->
  getMaskContext s = Some ctx ->
  last (history s) = Some (getImageData ctx) ->
  maskCanvas (handleUndo (handleResetMask s)) = Some ctx /\
  history (handleUndo (handleResetMask s))
  = drop (length (history s) - 10) (history s).
Proof.
  intros Hr Hctx Hlast.
  destruct (reachable_matches s Hr ctx Hctx) as [Hwf _].
  unfold handleResetMask. rewrite Hctx.
  assert (Hm : maskCanvas s = Some ctx)
    by (apply getMaskContext_Some in Hctx; tauto).
  rewrite Hm.
  assert (H2d : c_has2d (clearRect ctx) = true)
    by (apply getMaskContext_Some in Hctx; cbn; tauto).
  destruct (undo_after_save ctx (clearRect ctx)
              (setMaskCanvas (Some (clearRect ctx)) s)) as [Hmask Hhist];
    try assumption.
  - apply getMaskContext_setMaskCanvas, H2d.
  - apply same_shape_clearRect.
  - rewrite Hmask, Hhist. cbn [history setMaskCanvas].
    now rewrite js_slice_10.
Qed.

Lemma undo_takes_reset_back_witness :
  @reachable plainRaster (@run plainRaster sampleLoaded sampleStroke) /\
  getMaskContext (@run plainRaster sampleLoaded sampleStroke)
  = Some (mkCanvas 2 1 [255; 0; 0; 255; 255; 0; 0; 255]%Z true) /\
  last (history (@run plainRaster sampleLoaded sampleStroke))
  = Some (getImageData
            (mkCanvas 2 1 [255; 0; 0; 255; 255; 0; 0; 255]%Z true)) /\
  maskCanvas (handleUndo
                (handleResetMask
                   (@run plainRaster sampleLoaded sampleStroke)))
  = Some (mkCanvas 2 1 [255; 0; 0; 255; 255; 0; 0; 255]%Z true) /\
  history (handleUndo
             (handleResetMask (@run plainRaster sampleLoaded sampleStroke)))
  = drop (length (history (@run plainRaster sampleLoaded sampleStroke)) - 10)
      (history (@run plainRaster sampleLoaded sampleStroke)).
Proof.
  split; [apply reachable_run, sampleLoaded_reachable|].
  split; [reflexivity|]. split; [reflexivity|].
  apply (@undo_takes_reset_back plainRaster);
    [apply reachable_run, sampleLoaded_reachable | reflexivity | reflexivity].
Defined.

Lemma length_history_handleUndo (s : State) :
  length (history (handleUndo s))
  = if (length (history s) <=? 1)%nat then length (history s)
    else (length (history s) - 1)%nat.
Proof.
  rewrite history_handleUndo.
  destruct (length (history s) <=? 1)%nat; [reflexivity|].
  apply length_js_pop.
Qed.

Lemma length_history_iter_handleUndo (n : nat) (s : State) :
  (length (history (Nat.iter n handleUndo s))
   <= Nat.max 1 (length (history s) - n))%nat.
Proof.
  induction n as [|n IH].
  - cbn [Nat.iter nat_rect]. lia.
  - change (Nat.iter (S n) handleUndo s)
      with (handleUndo (Nat.iter n handleUndo s)).
    rewrite length_history_handleUndo.
    destruct (Nat.leb_spec (length (history (Nat.iter n handleUndo s))) 1);
      lia.
Qed.

(** X11. Ten undos are all there is: in every state the application can
    reach, after ten calls of [handleUndo] a further call changes
    nothing. *)
Theorem undo_at_most_ten_times `{Raster} (s : State) :
  reachable s ->
  handleUndo (Nat.iter 10 handleUndo s) = Nat.iter 10 handleUndo s.
Proof.
  intros Hr. apply handleUndo_short.
  pose proof (reachable_bound s Hr).
  pose proof (length_history_iter_handleUndo 10 s). lia.
Qed.

Lemma undo_at_most_ten_times_witness :
  @reachable plainRaster (@run plainRaster sampleLoaded sampleStroke) /\
  handleUndo (Nat.iter 10 handleUndo
                (@run plainRaster sampleLoaded sampleStroke))
  = Nat.iter 10 handleUndo (@run plainRaster sampleLoaded sampleStroke).
Proof.
  split; [apply reachable_run, sampleLoaded_reachable|].
  apply (@undo_at_most_ten_times plainRaster).
  apply reachable_run, sampleLoaded_reachable.
Defined.

(** ** Applying a result, loading an image *)

(** X12. [applyChanges] does nothing without a processed image.  With
    one, it becomes the base image, the processed image is dropped, the
    app is idle; and, the mask having a context, the mask canvas keeps
    its size, every byte of it is 0, and the cleared mask is the newest
    entry of the history. *)
Theorem applyChanges_clears_mask (s : State) :
  (truthy (processedImage s) = false -> applyChanges s = s) /\
  (truthy (processedImage s) = true ->
   baseImage (applyChanges s) = processedImage s /\
   processedImage (applyChanges s) = None /\
   appState (applyChanges s) = IDLE /\
   forall ctx, getMaskContext s = Some ctx ->
     exists cleared,
       maskCanvas (applyChanges s) = Some cleared /\
       same_shape ctx cleared /\
       (forall i b, c_data cleared !! i = Some b -> b = 0%Z) /\
       last (history (applyChanges s)) = Some (getImageData cleared)).
Proof.
  unfold applyChanges. split; intros Ht; rewrite Ht; [reflexivity|].
  set (s1 := setAppState IDLE
               (setProcessedImage None (setBaseImage (processedImage s) s))).
  assert (Hframe : forall st, baseImage (handleResetMask st) = baseImage st /\
                     processedImage (handleResetMask st) = processedImage st /\
                     appState (handleResetMask st) = appState st).
  { intros st. unfold handleResetMask, saveHistory.
    destruct (getMaskContext st) as [c|] eqn:Hc; [|repeat split].
    destruct (maskCanvas st); [|repeat split].
    destruct (getMaskContext (setMaskCanvas _ _));
      [destruct (maskCanvas (setMaskCanvas _ _))|]; repeat split. }
  destruct (Hframe s1) as (-> & -> & ->).
  repeat (split; [reflexivity|]).
  intros ctx Hctx.
  assert (Hctx1 : getMaskContext s1 = Some ctx) by exact Hctx.
  assert (Hm : maskCanvas s1 = Some ctx)
    by (apply getMaskContext_Some in Hctx1; tauto).
  assert (H2d : c_has2d (clearRect ctx) = true)
    by (apply getMaskContext_Some in Hctx1; cbn; tauto).
  exists (clearRect ctx). unfold handleResetMask. rewrite Hctx1, Hm.
  rewrite (saveHistory_with_context _ (clearRect ctx))
    by (apply getMaskContext_setMaskCanvas, H2d).
  cbn [maskCanvas history setHistory setMaskCanvas].
  split; [reflexivity|]. split; [apply same_shape_clearRect|].
  split; [|apply last_snoc].
  intros i b Hi. cbn in Hi. apply lookup_replicate in Hi. tauto.
Qed.

(** X13. Between the choice of a new base image and the moment it has
    loaded there is no mask canvas: the history is empty, undo does
    nothing, and both requests are refused with their alert, the state
    unchanged. *)
Theorem no_request_before_image_loads `{Raster} (env : Env)
    (result : string) (s : State) :
  let s' := loadBaseImage result s in
  history s' = [] /\ maskCanvas s' = None /\ handleUndo s' = s' /\
  handlePlaceObject env s' = (s', [Alerted alert_place_missing]) /\
  handleErase env s' = (s', [Alerted alert_erase_missing]).
Proof.
  cbv zeta. split; [reflexivity|]. split; [reflexivity|].
  split; [reflexivity|]. split.
  - apply handlePlaceObject_guard. intros (_ & _ & [mc Hmc]). discriminate Hmc.
  - apply handleErase_guard. intros (_ & [mc Hmc]). discriminate Hmc.
Qed.

(** X14. Once loaded, an image of positive size in a mounted container
    starts with a transparent mask of its size, a history of that one
    state, on which undo does nothing, and the transform
    [fitImageToScreen] computes. *)
Theorem image_load_starts_clean (s : State) (c : Container) (w h : nat) :
  container s = Some c -> (0 < w)%nat -> (0 < h)%nat ->
  exists s' t,
    initMaskCanvas true w h s = Some s' /\
    fitImageToScreen (Some c) (transform s)
      (inject_Z (Z.of_nat w)) (inject_Z (Z.of_nat h)) = Some t /\
    transform s' = t /\
    maskCanvas s' = Some (createCanvas true w h) /\
    history s' = [getImageData (createCanvas true w h)] /\
    handleUndo s' = s'.
Proof.
  intros Hc Hw Hh.
  assert (Hclear : clearRect (createCanvas true w h) = createCanvas true w h).
  { unfold clearRect, createCanvas, set_data. cbn [c_data c_width c_height
      c_has2d]. now rewrite length_replicate. }
  assert (HwQ : ~ inject_Z (Z.of_nat w) == 0).
  { intros E. assert (0 < inject_Z (Z.of_nat w))
      by (change 0 with (inject_Z 0); rewrite <- Zlt_Qlt; lia). lra. }
  assert (HhQ : ~ inject_Z (Z.of_nat h) == 0).
  { intros E. assert (0 < inject_Z (Z.of_nat h))
      by (change 0 with (inject_Z 0); rewrite <- Zlt_Qlt; lia). lra. }
  unfold initMaskCanvas, initMask. cbv zeta.
  cbn [getContext createCanvas c_has2d container transform setMaskCanvas
       setHistory].
  fold (createCanvas true w h). rewrite Hclear, Hc.
  rewrite fitImageToScreen_mounted by assumption. cbv zeta.
  do 2 eexists. split; [reflexivity|]. split; [reflexivity|].
  repeat split.
Qed.

Lemma image_load_starts_clean_witness :
  container sampleMounted = Some sampleRect /\ (0 < 2)%nat /\ (0 < 1)%nat /\
  exists s' t,
    initMaskCanvas true 2 1 sampleMounted = Some s' /\
    fitImageToScreen (Some sampleRect) (transform sampleMounted)
      (inject_Z (Z.of_nat 2)) (inject_Z (Z.of_nat 1)) = Some t /\
    transform s' = t /\
    maskCanvas s' = Some (createCanvas true 2 1) /\
    history s' = [getImageData (createCanvas true 2 1)] /\
    handleUndo s' = s'.
Proof.
  split; [reflexivity|]. split; [lia|]. split; [lia|].
  apply (image_load_starts_clean sampleMounted sampleRect 2 1);
    [reflexivity | lia | lia].
Defined.

Lemma applyChanges_clears_mask_witness :
  truthy (processedImage sampleComparing) = true /\
  baseImage (applyChanges sampleComparing) = processedImage sampleComparing /\
  processedImage (applyChanges sampleComparing) = None /\
  appState (applyChanges sampleComparing) = IDLE /\
  forall ctx, getMaskContext sampleComparing = Some ctx ->
    exists cleared,
      maskCanvas (applyChanges sampleComparing) = Some cleared /\
      same_shape ctx cleared /\
      (forall i b, c_data cleared !! i = Some b -> b = 0%Z) /\
      last (history (applyChanges sampleComparing))
      = Some (getImageData cleared).
Proof.
  split; [reflexivity|].
  apply (proj2 (applyChanges_clears_mask sampleComparing)). reflexivity.
Defined.

(** ** More on requests *)

Lemma handlePlaceObject_frame `{Raster} (env : Env) (s : State) :
  request_frame s (fst (handlePlaceObject env s)).
Proof.
  unfold handlePlaceObject.
  destruct (baseImage s) eqn:Hb, (objectSource s) eqn:Ho,
    (maskCanvas s) eqn:Hm;
    [destruct (negb _);
     [|destruct (placeObject_try _ _ _ _ _) as [log [r | |]]] | ..];
    unfold request_frame; cbn; repeat split; congruence.
Qed.

Lemma handleErase_frame `{Raster} (env : Env) (s : State) :
  request_frame s (fst (handleErase env s)).
Proof.
  unfold handleErase.
  destruct (baseImage s) eqn:Hb, (maskCanvas s) eqn:Hm;
    [destruct (negb _);
     [|destruct (erase_try _ _ _ _) as [log [r | |]]] | ..];
    unfold request_frame; cbn; repeat split; congruence.
Qed.

(** X15. A request changes the app state and the processed image and
    nothing else: the base image, the mask canvas, the history, the
    transform, the tool, the brush size, the object source and the model
    are as before, however the request ends. *)
Theorem requests_leave_canvas_alone `{Raster} (env : Env) (s : State) :
  request_frame s (fst (handlePlaceObject env s)) /\
  request_frame s (fst (handleErase env s)).
Proof.
  split; [apply handlePlaceObject_frame | apply handleErase_frame].
Qed.

(** X16. [resizeImage] has no error handler: when the API answers with
    something that does not load as an image, the request never ends.
    The state stays PROCESSING, nothing is alerted, and no processed
    image is set. *)
Theorem request_hangs_on_broken_image `{Raster} (env : Env) (s : State)
    (base : string) (mc : Canvas) (r : string) :
  baseImage s = Some base -> truthy (Some base) = true ->
  maskCanvas s = Some mc ->
  env_temp_has2d env = true ->
  requestImage (env_service env) = Fulfilled r ->
  image_loads (env_resizer env) = false ->
  (exists mask,
     handleErase env s
     = (setAppState PROCESSING s,
        [CalledErase base mask (selectedModel s);
         CalledResize r (c_width mc) (c_height mc)])) /\
  (forall obj, objectSource s = Some obj ->
     exists mask,
       handlePlaceObject env s
       = (setAppState PROCESSING s,
          [CalledPlace base mask (os_data obj) (selectedModel s);
           CalledResize r (c_width mc) (c_height mc)])).
Proof.
  intros Hb Ht Hm Hctx Hapi Hload.
  destruct (getMaskDataUrl_Some mc) as [mask Hmask]. split.
  - exists mask. rewrite (handleErase_request env s base mc Hb Ht Hm).
    cbv zeta. unfold erase_try, eraseObjectInImage, resizeImage.
    cbn [maskCanvas setAppState selectedModel].
    now rewrite Hm, Hctx, Hmask, Hapi, Hload.
  - intros obj Ho. exists mask.
    rewrite (handlePlaceObject_request env s base obj mc Hb Ht Ho Hm).
    cbv zeta. unfold placeObject_try, placeObjectInImage, resizeImage.
    cbn [maskCanvas setAppState selectedModel].
    now rewrite Hm, Hctx, Hmask, Hapi, Hload.
Qed.

Lemma request_hangs_on_broken_image_witness :
  baseImage sampleLoaded = Some sampleUrl /\
  truthy (Some sampleUrl) = true /\
  maskCanvas sampleLoaded = Some sampleBlank /\
  env_temp_has2d sampleEnvBrokenImage = true /\
  requestImage (env_service sampleEnvBrokenImage)
  = Fulfilled "data:image/png;base64,QUJD"%string /\
  image_loads (env_resizer sampleEnvBrokenImage) = false /\
  (exists mask,
     @handleErase plainRaster sampleEnvBrokenImage sampleLoaded
     = (setAppState PROCESSING sampleLoaded,
        [CalledErase sampleUrl mask (selectedModel sampleLoaded);
         CalledResize "data:image/png;base64,QUJD"%string
           (c_width sampleBlank) (c_height sampleBlank)])) /\
  (forall obj, objectSource sampleLoaded = Some obj ->
     exists mask,
       @handlePlaceObject plainRaster sampleEnvBrokenImage sampleLoaded
       = (setAppState PROCESSING sampleLoaded,
          [CalledPlace sampleUrl mask (os_data obj)
             (selectedModel sampleLoaded);
           CalledResize "data:image/png;base64,QUJD"%string
             (c_width sampleBlank) (c_height sampleBlank)])).
Proof.
  repeat (split; [reflexivity|]).
  apply (@request_hangs_on_broken_image plainRaster sampleEnvBrokenImage
           sampleLoaded sampleUrl sampleBlank); reflexivity.
Defined.

(** ** The keyboard *)

Lemma brushSize_paintMask `{Raster} (coords : option Point) (s : State) :
  brushSize (paintMask coords s) = brushSize s.
Proof.
  unfold paintMask. destruct (getMaskContext s); [|reflexivity].
  destruct coords; reflexivity.
Qed.

Lemma brushSize_saveHistory (s : State) :
  brushSize (saveHistory s) = brushSize s.
Proof.
  unfold saveHistory. destruct (getMaskContext s); [|reflexivity].
  destruct (maskCanvas s); reflexivity.
Qed.

Lemma brushSize_handleUndo (s : State) :
  brushSize (handleUndo s) = brushSize s.
Proof.
  unfold handleUndo. destruct (_ <=? _)%nat; [reflexivity|]. cbv zeta.
  destruct (getMaskContext _); [|reflexivity].
  destruct (_ !! _); reflexivity.
Qed.

Lemma brushSize_handleResetMask (s : State) :
  brushSize (handleResetMask s) = brushSize s.
Proof.
  unfold handleResetMask. destruct (getMaskContext s); [|reflexivity].
  destruct (maskCanvas s); [|reflexivity].
  now rewrite brushSize_saveHistory.
Qed.

Lemma brush_smaller_in_range (b : Q) :
  5 <= b -> b <= 100 -> 5 <= Qmax 5 (b - 5) /\ Qmax 5 (b - 5) <= 100.
Proof.
  intros Hlo Hhi. split; [apply Q.le_max_l|]. apply Q.max_lub; lra.
Qed.

Lemma brush_larger_in_range (b : Q) :
  5 <= b -> b <= 100 -> 5 <= Qmin 100 (b + 5) /\ Qmin 100 (b + 5) <= 100.
Proof.
  intros Hlo Hhi. split; [|apply Q.le_min_l]. apply Q.min_glb; lra.
Qed.

Lemma step_brush_in_range `{Raster} (s : State) (ev : Event) :
  brush_in_range s -> brush_in_range (step s ev).
Proof.
  unfold brush_in_range. intros Hb. destruct ev; cbn [step]; try exact Hb.
  - unfold handleMouseDown. destruct (negb _); [exact Hb|]. cbv zeta.
    destruct (_ && _); [rewrite brushSize_paintMask|]; exact Hb.
  - unfold handleMouseMove. destruct (negb _); [exact Hb|].
    destruct (ToolType_eqb (tool s) HAND); [exact Hb|].
    destruct (ToolType_eqb (tool s) BRUSH);
      [rewrite brushSize_paintMask|]; exact Hb.
  - unfold handleMouseUp. destruct (_ && _);
      cbn [brushSize setLastPos setIsDragging];
      [rewrite brushSize_saveHistory|]; exact Hb.
  - unfold handleMouseUp. destruct (_ && _);
      cbn [brushSize setLastPos setIsDragging];
      [rewrite brushSize_saveHistory|]; exact Hb.
  - now rewrite brushSize_handleUndo.
  - now rewrite brushSize_handleResetMask.
  - unfold applyChanges. destruct (truthy _); [|exact Hb].
    now rewrite brushSize_handleResetMask.
  - destruct (handlePlaceObject_frame env s)
      as (_ & _ & _ & _ & _ & -> & _). exact Hb.
  - destruct (handleErase_frame env s)
      as (_ & _ & _ & _ & _ & -> & _). exact Hb.
  - unfold brushSmaller. destruct (ToolType_eqb _ _); [|exact Hb].
    apply brush_smaller_in_range; tauto.
  - unfold brushLarger. destruct (ToolType_eqb _ _); [|exact Hb].
    apply brush_larger_in_range; tauto.
Qed.

Lemma reachable_brush_in_range `{Raster} (s : State) :
  reachable s -> brush_in_range s.
Proof.
  induction 1 as [| s ev _ IH | s has2d w h _ IH | s t _ IH].
  - split; cbv; discriminate.
  - apply step_brush_in_range, IH.
  - destruct has2d; exact IH.
  - exact IH.
Qed.

(** Every effect of a key press is one of the events of [step]. *)
Lemma handleKeyDown_reachable `{Raster} (tag : option string)
    (e : KeyboardEvent) (s : State) :
  reachable s -> reachable (handleKeyDown tag e s).
Proof.
  intros Hr. unfold handleKeyDown.
  destruct (in_form_field tag); [exact Hr|]. cbv zeta.
  set (k := toLowerCase (key e)).
  assert (H3 : reachable
                 (if (metaKey e || ctrlKey e) && (k =? "z")%string
                  then handleUndo
                         (if (k =? "h")%string
                          then setTool HAND
                                 (if (k =? "b")%string then setTool BRUSH s
                                  else s)
                          else if (k =? "b")%string then setTool BRUSH s
                               else s)
                  else if (k =? "h")%string
                       then setTool HAND
                              (if (k =? "b")%string then setTool BRUSH s
                               else s)
                       else if (k =? "b")%string then setTool BRUSH s
                            else s)).
  { assert (H1 : reachable (if (k =? "b")%string then setTool BRUSH s else s)).
    { destruct (k =? "b")%string; [|exact Hr].
      exact (reachable_step s (EvSetTool BRUSH) Hr). }
    assert (H2 : reachable
                   (if (k =? "h")%string
                    then setTool HAND
                           (if (k =? "b")%string then setTool BRUSH s else s)
                    else if (k =? "b")%string then setTool BRUSH s else s)).
    { destruct (k =? "h")%string; [|exact H1].
      exact (reachable_step _ (EvSetTool HAND) H1). }
    destruct (_ && _); [|exact H2].
    exact (reachable_step _ EvUndo H2). }
  destruct (ToolType_eqb (tool s) BRUSH) eqn:Htool; [|exact H3].
  assert (Hsmaller : reachable (setBrushSize (Qmax 5 (brushSize s - 5)) s)).
  { pose proof (reachable_step s EvBrushSmaller Hr) as Hs.
    cbn [step] in Hs. unfold brushSmaller in Hs. now rewrite Htool in Hs. }
  assert (Hlarger : reachable (setBrushSize (Qmin 100 (brushSize s + 5)) s)).
  { pose proof (reachable_step s EvBrushLarger Hr) as Hs.
    cbn [step] in Hs. unfold brushLarger in Hs. now rewrite Htool in Hs. }
  unfold k in *. clear k.
  destruct (String.eqb_spec (key e) "[") as [E | _];
    [|destruct (String.eqb_spec (key e) "-") as [E | _];
      [|destruct (String.eqb_spec (key e) "]") as [E | _];
        [|destruct (String.eqb_spec (key e) "=") as [E | _]]]];
    try (rewrite E; clear H3;
         cbn -[Qmax Qmin Qplus Qminus handleUndo];
         rewrite ?Bool.andb_false_r).
  - exact Hsmaller.
  - exact Hsmaller.
  - exact Hlarger.
  - exact Hlarger.
  - exact H3.
Qed.

Lemma handleKeys_reachable `{Raster}
    (presses : list (option string * KeyboardEvent)) :
  forall s, reachable s -> reachable (handleKeys s presses).
Proof.
  induction presses as [|p presses IH]; intros s Hr; [exact Hr|].
  apply IH, handleKeyDown_reachable, Hr.
Qed.

(** X17. The keyboard keeps the brush between 5 and 100: in every state
    reached from the initial one by the events of [step], the brush keys
    among them, and after any sequence of key presses from there,
    [5 <= brushSize <= 100]. *)
Theorem brush_size_stays_in_range `{Raster} (s : State)
    (presses : list (option string * KeyboardEvent)) :
  reachable s ->
  5 <= brushSize (handleKeys s presses) /\
  brushSize (handleKeys s presses) <= 100.
Proof.
  intros Hr. apply reachable_brush_in_range, handleKeys_reachable, Hr.
Qed.

Lemma brush_size_stays_in_range_witness :
  @reachable plainRaster sampleLoaded /\
  5 <= brushSize
         (handleKeys sampleLoaded
            [(None, mkKeyboardEvent "[" false false);
             (Some "BODY"%string, mkKeyboardEvent "-" false false);
             (None, mkKeyboardEvent "]" false false)]) /\
  brushSize
    (handleKeys sampleLoaded
       [(None, mkKeyboardEvent "[" false false);
        (Some "BODY"%string, mkKeyboardEvent "-" false false);
        (None, mkKeyboardEvent "]" false false)]) <= 100.
Proof.
  split; [exact sampleLoaded_reachable|].
  apply (@brush_size_stays_in_range plainRaster).
  exact sampleLoaded_reachable.
Defined.

(** X18. What the keys do.  With the focus in an input, a text area or a
    select, no key does anything.  Elsewhere: b and h, in either case
    and with any modifier, select the brush and the hand; z in either
    case is undo with Ctrl or Meta held and nothing without; the bracket
    keys, - and = change the brush size as [brushSmaller] and
    [brushLarger] do, that is, only while the brush is selected. *)
Theorem keyboard_shortcuts (tag : option string) (e : KeyboardEvent)
    (s : State) :
  (in_form_field tag = true -> handleKeyDown tag e s = s) /\
  (in_form_field tag = false ->
   (key e = "b"%string \/ key e = "B"%string ->
    handleKeyDown tag e s = setTool BRUSH s) /\
   (key e = "h"%string \/ key e = "H"%string ->
    handleKeyDown tag e s = setTool HAND s) /\
   (key e = "z"%string \/ key e = "Z"%string ->
    handleKeyDown tag e s
    = if metaKey e || ctrlKey e then handleUndo s else s) /\
   (key e = "["%string \/ key e = "-"%string ->
    handleKeyDown tag e s = brushSmaller s) /\
   (key e = "]"%string \/ key e = "="%string ->
    handleKeyDown tag e s = brushLarger s)).
Proof.
  unfold handleKeyDown, brushSmaller, brushLarger.
  split; intros Htag; rewrite Htag; [reflexivity|].
  repeat split; intros [E | E]; rewrite E;
    cbn -[Qmax Qmin Qplus Qminus handleUndo];
    rewrite ?Bool.andb_false_r, ?Bool.andb_true_r;
    destruct (ToolType_eqb (tool s) BRUSH) eqn:Htool;
    try reflexivity;
    destruct (metaKey e || ctrlKey e); reflexivity.
Qed.

(** ** The service *)

Lemma firstImage_cons (part : Part) (rest : list Part) :
  firstImage (part :: rest)
  = match part_image part with
    | Some url => Some url
    | None => firstImage rest
    end.
Proof.
  cbn [firstImage]. unfold part_image.
  destruct (inlineData part) as [d|]; [|reflexivity].
  destruct (truthy (inline_data d)); reflexivity.
Qed.

(** X19. The answer of the API is the image of the first part that has
    inline data: parts without data before it are skipped, parts after
    it are not looked at; and there is no answer exactly when no part
    has data. *)
Theorem firstImage_first_part_with_data (parts : list Part) :
  (forall url,
     firstImage parts = Some url <->
     exists before part after,
       parts = before ++ part :: after /\
       Forall (fun p => part_image p = None) before /\
       part_image part = Some url) /\
  (firstImage parts = None <-> Forall (fun p => part_image p = None) parts).
Proof.
  induction parts as [|p parts [IHsome IHnone]].
  - split.
    + intros url. split; [discriminate|].
      intros (before & part & after & E & _). destruct before; discriminate.
    + split; [constructor | reflexivity].
  - rewrite firstImage_cons. split.
    + intros url. destruct (part_image p) as [u|] eqn:Hp; split.
      * intros [= <-]. exists [], p, parts. repeat split; [constructor | exact Hp].
      * intros (before & part & after & E & Hall & Hpart).
        destruct before as [|q before]; cbn in E; injection E as <- _.
        -- congruence.
        -- apply Forall_cons in Hall as [Hq _]. congruence.
      * intros Hf. apply IHsome in Hf as (before & part & after & -> & Hall & Hpart).
        exists (p :: before), part, after. repeat split; [|exact Hpart].
        constructor; assumption.
      * intros (before & part & after & E & Hall & Hpart).
        destruct before as [|q before]; cbn in E; injection E as <- E.
        -- congruence.
        -- apply IHsome. exists before, part, after.
           apply Forall_cons in Hall as [_ Hall]. repeat split; assumption.
    + destruct (part_image p) as [u|] eqn:Hp; split.
      * discriminate.
      * intros Hall. apply Forall_cons in Hall as [Hq _]. congruence.
      * intros Hf. constructor; [exact Hp | apply IHnone, Hf].
      * intros Hall. apply Forall_cons in Hall as [_ Hall]. apply IHnone, Hall.
Qed.

Lemma split_on_no_sep (sep : ascii) (s : string) :
  has_char sep s = false -> split_on sep s = [s].
Proof.
  induction s as [|c s IH]; [reflexivity|]. cbn [has_char split_on].
  destruct (Ascii.eqb c sep); [discriminate|]. cbn [orb]. intros Hs.
  now rewrite (IH Hs).
Qed.

Lemma split_on_app (sep : ascii) (a b : string) :
  has_char sep a = false ->
  split_on sep (a ++ String sep b)%string = a :: split_on sep b.
Proof.
  induction a as [|c a IH]; cbn [has_char split_on String.append].
  - intros _. now rewrite Ascii.eqb_refl.
  - destruct (Ascii.eqb c sep); [discriminate|]. cbn [orb]. intros Ha.
    now rewrite (IH Ha).
Qed.

Lemma has_char_app (c : ascii) (a b : string) :
  has_char c (a ++ b)%string = has_char c a || has_char c b.
Proof.
  induction a as [|d a IH]; [reflexivity|]. cbn [has_char String.append].
  rewrite IH. apply orb_assoc.
Qed.

(** X20. The payload survives the data URL.  [cleanBase64] applied to
    the URL the service builds from a MIME type and a payload gives the
    payload back, provided neither contains a comma; applied to a string
    without a comma it gives [undefined]. *)
Theorem cleanBase64_payload (mime : option string) (data s : string) :
  (has_char ","%char (default EmptyString mime) = false ->
   has_char ","%char data = false ->
   cleanBase64 (imageDataUrl mime data) = Some data) /\
  (has_char ","%char s = false -> cleanBase64 s = None).
Proof.
  split.
  - intros Hmime Hdata. unfold cleanBase64, imageDataUrl.
    set (m := if truthy mime then default "image/png"%string mime
              else "image/png"%string).
    assert (Hm : has_char ","%char m = false).
    { unfold m. destruct mime as [[|c mime]|]; try reflexivity. exact Hmime. }
    replace ("data:" ++ m ++ ";base64," ++ data)%string
      with (("data:" ++ m ++ ";base64") ++ String ","%char data)%string.
    + rewrite split_on_app.
      * now rewrite split_on_no_sep.
      * rewrite !has_char_app, Hm. reflexivity.
    + clear. induction m as [|c m IH]; [reflexivity|].
      cbn in *. injection IH as IH. now rewrite IH.
  - intros Hs. unfold cleanBase64. now rewrite split_on_no_sep.
Qed.

Lemma cleanBase64_payload_witness :
  has_char ","%char (default EmptyString (Some "image/jpeg"%string)) = false /\
  has_char ","%char "QUJD"%string = false /\
  cleanBase64 (imageDataUrl (Some "image/jpeg"%string) "QUJD") = Some "QUJD"%string.
Proof.
  split; [reflexivity|]. split; [reflexivity|].
  apply (proj1 (cleanBase64_payload (Some "image/jpeg"%string) "QUJD"
                  EmptyString)); reflexivity.
Defined.

(** ** Generating the object *)

Lemma drop_spaces_nil (s : JsString) :
  drop_spaces s = [] <-> forallb is_js_space s = true.
Proof.
  induction s as [|c s IH]; [split; reflexivity|].
  cbn [drop_spaces forallb]. destruct (is_js_space c); cbn [andb].
  - exact IH.
  - split; discriminate.
Qed.

Lemma trim_nil (s : JsString) :
  trim s = [] <-> forallb is_js_space s = true.
Proof.
  unfold trim. rewrite <- drop_spaces_nil. split.
  - intros Ht. apply (f_equal reverse) in Ht.
    rewrite reverse_involutive in Ht. cbn in Ht.
    destruct (drop_spaces (reverse (drop_spaces s))) eqn:E; [|discriminate].
    apply drop_spaces_nil in E.
    destruct (drop_spaces s) as [|c r] eqn:Hs; [reflexivity|].
    exfalso.
    assert (Hc : is_js_space c = false).
    { clear -Hs. induction s as [|d s IH]; [discriminate|].
      cbn in Hs. destruct (is_js_space d) eqn:Hd; [auto|].
      injection Hs as <- _. exact Hd. }
    rewrite reverse_cons, forallb_app in E. cbn in E.
    rewrite Hc in E. rewrite Bool.andb_false_r in E. discriminate.
  - intros ->. reflexivity.
Qed.

(** X21. Generating the object.  A prompt that is empty or all white
    space does nothing.  Otherwise the text is sent: on success the
    object source becomes the generated image, of type text, previewed
    by itself; on failure an alert is shown and the object source stays;
    in both cases the busy flag is cleared, and it stays set only while
    the request has not ended. *)
Theorem handleGenerateObject_outcome (svc : Service) (prompt : JsString)
    (busy : bool) (s : State) :
  (forallb is_js_space prompt = true ->
   handleGenerateObject svc prompt busy s = (s, busy, [])) /\
  (forallb is_js_space prompt = false ->
   handleGenerateObject svc prompt busy s
   = match requestImage svc with
     | Fulfilled url =>
         (setObjectSource (Some (mkObjectSource src_text url (Some url))) s,
          false, [GenerateRequested prompt])
     | Rejected => (s, false, [GenerateRequested prompt; GenerateAlerted])
     | Pending => (s, true, [GenerateRequested prompt])
     end).
Proof.
  unfold handleGenerateObject, generateImageFromText. split; intros Hp.
  - apply trim_nil in Hp. now rewrite Hp.
  - destruct (trim prompt) as [|c r] eqn:Ht; [|reflexivity].
    apply trim_nil in Ht. congruence.
Qed.

(** ** Ending a stroke twice, undo after applying *)

(** X22. Releasing the button and leaving the canvas both call
    [handleMouseUp]; the second call adds nothing: the stroke is saved
    once. *)
Theorem handleMouseUp_once (s : State) :
  handleMouseUp (handleMouseUp s) = handleMouseUp s.
Proof.
  unfold handleMouseUp at 1.
  assert (Hd : isDragging (handleMouseUp s) = false) by reflexivity.
  rewrite Hd. cbn [andb]. reflexivity.
Qed.

(** X23. Applying a result does not forget the mask painted for it: in a
    reachable state with a processed image, whose mask is the one the
    history ends with, [applyChanges] followed by [handleUndo] leaves
    that mask on the mask canvas, over the new base image. *)
Theorem undo_after_apply_restores_mask `{Raster} (s : State) (ctx : Canvas) :
  reachable s ->
  truthy (processedImage s) = true ->
  getMaskContext s = Some ctx ->
  last (history s) = Some (getImageData ctx) ->
  maskCanvas (handleUndo (applyChanges s)) = Some ctx /\
  baseImage (handleUndo (applyChanges s)) = processedImage s.
Proof.
  intros Hr Ht Hctx Hlast.
  destruct (reachable_matches s Hr ctx Hctx) as [Hwf _].
  unfold applyChanges. rewrite Ht.
  set (s1 := setAppState IDLE
               (setProcessedImage None (setBaseImage (processedImage s) s))).
  assert (Hctx1 : getMaskContext s1 = Some ctx) by exact Hctx.
  assert (Hm : maskCanvas s1 = Some ctx)
    by (apply getMaskContext_Some in Hctx1; tauto).
  assert (H2d : c_has2d (clearRect ctx) = true)
    by (apply getMaskContext_Some in Hctx1; cbn; tauto).
  unfold handleResetMask. rewrite Hctx1, Hm.
  set (s2 := setMaskCanvas (Some (clearRect ctx)) s1).
  assert (Hc2 : getMaskContext s2 = Some (clearRect ctx))
    by (apply getMaskContext_setMaskCanvas, H2d).
  destruct (undo_after_save ctx (clearRect ctx) s2 Hc2
              (same_shape_clearRect ctx) Hwf Hlast) as [Hmask _].
  split; [exact Hmask|].
  destruct (last_js_slice _ _ _ Hlast) as [older Hslice].
  rewrite (saveHistory_with_context s2 _ Hc2).
  change (history s2) with (history s). rewrite Hslice.
  rewrite (handleUndo_long _ older (getImageData ctx)
             (getImageData (clearRect ctx)) (clearRect ctx));
    [reflexivity | cbn [history setHistory]; now rewrite <- app_assoc
     | exact Hc2].
Qed.

Lemma undo_after_apply_restores_mask_witness :
  @reachable plainRaster
    (@run plainRaster sampleLoaded
       (sampleStroke ++ [EvErase sampleEnvResult])) /\
  truthy (processedImage
            (@run plainRaster sampleLoaded
               (sampleStroke ++ [EvErase sampleEnvResult]))) = true /\
  getMaskContext
    (@run plainRaster sampleLoaded
       (sampleStroke ++ [EvErase sampleEnvResult]))
  = Some (mkCanvas 2 1 samplePaintedData true) /\
  last (history
          (@run plainRaster sampleLoaded
             (sampleStroke ++ [EvErase sampleEnvResult])))
  = Some (getImageData (mkCanvas 2 1 samplePaintedData true)) /\
  maskCanvas
    (handleUndo
       (applyChanges
          (@run plainRaster sampleLoaded
             (sampleStroke ++ [EvErase sampleEnvResult]))))
  = Some (mkCanvas 2 1 samplePaintedData true) /\
  baseImage
    (handleUndo
       (applyChanges
          (@run plainRaster sampleLoaded
             (sampleStroke ++ [EvErase sampleEnvResult]))))
  = processedImage
      (@run plainRaster sampleLoaded
         (sampleStroke ++ [EvErase sampleEnvResult])).
Proof.
  split; [apply reachable_run, sampleLoaded_reachable|].
  split; [reflexivity|]. split; [reflexivity|]. split; [reflexivity|].
  apply (@undo_after_apply_restores_mask plainRaster);
    first [apply reachable_run, sampleLoaded_reachable | reflexivity].
Defined.

(** The state of that instance: the mask is painted, the processed image
    is not the base image, and applying clears the mask before undo puts
    the painted one back. *)
Example apply_then_undo_on_painted_mask :
  let s := @run plainRaster sampleLoaded
             (sampleStroke ++ [EvErase sampleEnvResult]) in
  baseImage s = Some sampleUrl /\
  processedImage s = Some sampleResult /\
  (c_data <$> maskCanvas s) = Some samplePaintedData /\
  (c_data <$> maskCanvas (applyChanges s)) = Some (c_data sampleBlank) /\
  (c_data <$> maskCanvas (handleUndo (applyChanges s)))
  = Some samplePaintedData /\
  baseImage (handleUndo (applyChanges s)) = Some sampleResult.
Proof.
  repeat (split; [vm_compute; reflexivity|]). vm_compute; reflexivity.
Qed.

(** * Where the code departs from its comment, and from exact arithmetic *)

(** ** The initial clear state and the bound on the history *)

(** C3. The comment in [handleUndo] says the initial clear state is
    always kept, and [handleUndo] never removes the first entry; but
    [saveHistory] keeps the last ten entries only.  On the sample mask:
    the history starts with the clear state; after ten strokes it still
    does; after eleven its first entry is a painted state, and ten undos
    later the one entry left and the mask are painted, with undo doing
    nothing more. *)
Lemma initial_clear_state_evicted :
  history sampleLoaded = [getImageData sampleBlank] /\
  head (history (@run plainRaster sampleLoaded (sampleStrokes 10)))
  = Some (getImageData sampleBlank) /\
  head (history (@run plainRaster sampleLoaded (sampleStrokes 11)))
  = Some (mkImageData 2 1 samplePaintedData) /\
  history (Nat.iter 10 handleUndo
             (@run plainRaster sampleLoaded (sampleStrokes 11)))
  = [mkImageData 2 1 samplePaintedData] /\
  maskCanvas (Nat.iter 10 handleUndo
                (@run plainRaster sampleLoaded (sampleStrokes 11)))
  = Some (mkCanvas 2 1 samplePaintedData true) /\
  handleUndo (Nat.iter 10 handleUndo
                (@run plainRaster sampleLoaded (sampleStrokes 11)))
  = Nat.iter 10 handleUndo
      (@run plainRaster sampleLoaded (sampleStrokes 11)).
Proof.
  split; [vm_compute; reflexivity|]. split; [vm_compute; reflexivity|].
  split; [vm_compute; reflexivity|]. split; [vm_compute; reflexivity|].
  split; vm_compute; reflexivity.
Qed.

(** ** Rounding *)

(** C10 does not hold of the doubles the code computes with: for a
    container of 1600 x 826 and an image of 4032 x 3024 the top margin
    is 19.999999999999943, below 20, while the bottom margin comes out
    as 20. *)
Lemma fitImageToScreen_rounding_counterexample :
  (t64_y (fitImageToScreen64 1600 826 4032 3024) =? 19.999999999999943)%float
  = true /\
  (t64_y (fitImageToScreen64 1600 826 4032 3024) <? 20)%float = true /\
  (826 - (t64_y (fitImageToScreen64 1600 826 4032 3024)
          + 3024 * t64_k (fitImageToScreen64 1600 826 4032 3024))
   =? 20)%float = true.
Proof. repeat (split; [vm_compute; reflexivity|]). vm_compute; reflexivity. Qed.

(** In doubles, a wheel event at the upper limit keeps the scale and
    moves the translation by a rounding error. *)
Example wheel_at_limit_rounds :
  let t := wheelUpdate64 100 50 zoomIn64 (mkTransform64 0.1 0.2 5) in
  (t64_k t =? 5)%float = true /\
  (t64_x t =? 0.09999999999999432)%float = true /\
  (t64_y t =? 0.20000000000000284)%float = true.
Proof. repeat (split; [vm_compute; reflexivity|]). vm_compute; reflexivity. Qed.

(** In doubles, one notch in and one notch out from scale 2 end at
    1.9800000000000002. *)
Example wheel_in_then_out_rounds :
  let t1 := wheelUpdate64 100 50 zoomIn64 (mkTransform64 3 4 2) in
  let t2 := wheelUpdate64 100 50 zoomOut64 t1 in
  (t64_k t2 =? 1.9800000000000002)%float = true.
Proof. vm_compute; reflexivity. Qed.

(** In doubles, the image point under the pointer moves by a rounding
    error when the hand tool drags from 30 to 43. *)
Example pan_rounds :
  let t := mkTransform64 20.3 120.7 0.8 in
  let t' := mkTransform64 (panX64 30 43 t) (t64_y t) (t64_k t) in
  (imageX64 30 t =? 12.124999999999998)%float = true /\
  (imageX64 43 t' =? 12.125000000000004)%float = true.
Proof. repeat (split; [vm_compute; reflexivity|]). vm_compute; reflexivity. Qed.
